(** * pastens: the domain-search controller of [src/app/page.tsx]

    A shallow embedding of the [Home] component's search logic
    (normalisation, search history, fetch lifecycle, route initialisation)
    and of [DomainPage] from [src/app/[domain]/page.tsx].

    JavaScript strings are modelled by [string]; a character stands for one
    UTF-16 code unit in the range 0..255 (Latin-1), on which [toLowerCase],
    [trim], [encodeURIComponent] and [JSON.stringify] are defined below as
    ECMAScript defines them. *)

From Stdlib Require Import Bool Arith NArith ZArith Lia List Ascii String.
Import ListNotations.
Open Scope string_scope.

(** ** JavaScript string primitives *)

Module JsString.

(** Code units with an upper-case form below 256: A-Z, and U+00C0..U+00DE
    except the multiplication sign U+00D7. *)
Definition isUpper (c : ascii) : bool :=
  let n := N_of_ascii c in
  ((65 <=? n) && (n <=? 90) || (192 <=? n) && (n <=? 222) && negb (n =? 215))%N.

Definition lowerChar (c : ascii) : ascii :=
  if isUpper c then ascii_of_N (N_of_ascii c + 32) else c.

(** ECMAScript WhiteSpace and LineTerminator code units below 256:
    TAB, LF, VT, FF, CR, SP and NBSP. *)
Definition isWhiteSpace (c : ascii) : bool :=
  let n := N_of_ascii c in
  ((n =? 9) || (n =? 10) || (n =? 11) || (n =? 12) || (n =? 13)
   || (n =? 32) || (n =? 160))%N.

(** [String.prototype.toLowerCase] *)
Fixpoint toLowerCase (s : string) : string :=
  match s with
  | EmptyString => EmptyString
  | String c r => String (lowerChar c) (toLowerCase r)
  end.

(** [String.prototype.trimStart] *)
Fixpoint trimStart (s : string) : string :=
  match s with
  | EmptyString => EmptyString
  | String c r => if isWhiteSpace c then trimStart r else s
  end.

(** [String.prototype.trimEnd] *)
Fixpoint trimEnd (s : string) : string :=
  match s with
  | EmptyString => EmptyString
  | String c r =>
      match trimEnd r with
      | EmptyString => if isWhiteSpace c then EmptyString else String c EmptyString
      | t => String c t
      end
  end.

(** [String.prototype.trim] *)
Definition trim (s : string) : string := trimEnd (trimStart s).

(** [String.prototype.endsWith]: some suffix of [s] is [suffix]. *)
Fixpoint endsWith (s suffix : string) : bool :=
  String.eqb s suffix ||
  match s with
  | EmptyString => false
  | String _ r => endsWith r suffix
  end.

(** [s.slice(1)] *)
Definition slice1 (s : string) : string :=
  match s with
  | EmptyString => EmptyString
  | String _ r => r
  end.

(** A string is falsy exactly when it is empty. *)
Definition nonEmpty (s : string) : bool :=
  match s with
  | EmptyString => false
  | String _ _ => true
  end.

(** [a || b] on strings. *)
Definition orElse (a b : string) : string := if nonEmpty a then a else b.

End JsString.
Import JsString.

(** ** Normalisation of the search term (performSearch, lines 110-114) *)

(** The value of the local [searchName] that [performSearch name] computes. *)
Definition searchNameOf (name : string) : string :=
  let searchName := toLowerCase (trim name) in
  if negb (endsWith searchName ".eth") then searchName ++ ".eth" else searchName.

(** [name.trim().toLowerCase()], as in [saveToHistory] and [updateURL]. *)
Definition normalizedName (name : string) : string := toLowerCase (trim name).

(** ** Platform functions used by the component *)

Module Builtins.

Definition hexDigit (base n : N) : ascii :=
  ascii_of_N (if (n <? 10)%N then 48 + n else base + (n - 10))%N.

(** [%XX] with upper-case hexadecimal digits. *)
Definition percentByte (b : N) : string :=
  String "%" (String (hexDigit 65 (b / 16)) (String (hexDigit 65 (b mod 16)) "")).

(** Characters [encodeURIComponent] leaves alone:
    A-Z a-z 0-9 - _ . ! ~ * ' ( ) *)
Definition isUnreserved (c : ascii) : bool :=
  let n := N_of_ascii c in
  ((65 <=? n) && (n <=? 90) || (97 <=? n) && (n <=? 122) || (48 <=? n) && (n <=? 57)
   || (n =? 45) || (n =? 95) || (n =? 46) || (n =? 33) || (n =? 126)
   || (n =? 42) || (n =? 39) || (n =? 40) || (n =? 41))%N.

(** One code unit, percent-encoded through its UTF-8 bytes.  Below 256
    there is no lone surrogate, the one input on which the platform
    function throws. *)
Definition encodeUnit (c : ascii) : string :=
  let n := N_of_ascii c in
  if isUnreserved c then String c ""
  else if (n <? 128)%N then percentByte n
  else percentByte (192 + n / 64) ++ percentByte (128 + n mod 64).

Fixpoint encodeURIComponent (s : string) : string :=
  match s with
  | EmptyString => EmptyString
  | String c r => encodeUnit c ++ encodeURIComponent r
  end.

Definition dquote : ascii := ascii_of_N 34.

(** One code unit inside a JSON string literal. *)
Definition quoteUnit (c : ascii) : string :=
  let n := N_of_ascii c in
  if (n =? 34)%N then String "\" (String dquote "")
  else if (n =? 92)%N then "\\"
  else if (n =? 8)%N then "\b"
  else if (n =? 12)%N then "\f"
  else if (n =? 10)%N then "\n"
  else if (n =? 13)%N then "\r"
  else if (n =? 9)%N then "\t"
  else if (n <? 32)%N then
    "\u00" ++ String (hexDigit 97 (n / 16)) (String (hexDigit 97 (n mod 16)) "")
  else String c "".

Fixpoint quoteUnits (s : string) : string :=
  match s with
  | EmptyString => EmptyString
  | String c r => quoteUnit c ++ quoteUnits r
  end.

Definition quoteJSONString (s : string) : string :=
  String dquote (quoteUnits s ++ String dquote "").

(** [JSON.stringify] of an array of strings. *)
Definition JSON_stringify (items : list string) : string :=
  "[" ++ String.concat "," (map quoteJSONString items) ++ "]".

End Builtins.
Import Builtins.

(** ** JavaScript values *)

(** The values [JSON.parse] and [response.json()] produce.  A number is
    the double [m * 2^e]; only whether it is zero matters here. *)
#[warnings="-register-all"]
Inductive JsVal : Type :=
| JNull
| JBool (b : bool)
| JNum (m e : Z)
| JStr (s : string)
| JArr (items : list JsVal)
| JObj (fields : list (string * JsVal)).

(** ToBoolean *)
Definition truthy (v : JsVal) : bool :=
  match v with
  | JNull => false
  | JBool b => b
  | JNum m _ => negb (m =? 0)%Z
  | JStr s => nonEmpty s
  | JArr _ | JObj _ => true
  end.

Definition isNull (v : JsVal) : bool :=
  match v with JNull => true | _ => false end.

(** A call of a platform function either returns or throws an error, of
    which the component only reads [message]. *)
Inductive Result (A : Type) : Type :=
| Normal (a : A)
| Throw (message : string).
Arguments Normal {A} a.
Arguments Throw {A} message.

(** V8's wording for reading a property of [null]. *)
Definition nullPropertyMessage : string :=
  "Cannot read properties of null (reading 'error')".

Fixpoint getField (key : string) (fields : list (string * JsVal)) : option JsVal :=
  match fields with
  | [] => None
  | (k, v) :: rest => if String.eqb k key then Some v else getField key rest
  end.

(** [errorData.error]: [None] is [undefined]. *)
Definition errorField (errorData : JsVal) : Result (option JsVal) :=
  match errorData with
  | JNull => Throw nullPropertyMessage
  | JObj fields => Normal (getField "error" fields)
  | _ => Normal None
  end.

(** [v || fallback] *)
Definition orDefault (v : option JsVal) (fallback : string) : JsVal :=
  match v with
  | Some x => if truthy x then x else JStr fallback
  | None => JStr fallback
  end.

(** ** Constants of page.tsx *)

Definition SEARCH_HISTORY_KEY : string := "pastens_search_history".
Definition MAX_SEARCH_HISTORY : nat := 10.

Definition rateLimitMessage : string :=
  "Rate limit exceeded. The Graph API is temporarily rate-limiting requests. Please wait a few moments and try again.".
Definition failedMessage : string :=
  "Failed to fetch ENS history. Please try again.".

(** ** The component and its surroundings *)

(** What [Home] reads from its caller and from [usePathname]. *)
Record Route : Type := {
  initialDomain : option string;
  pathname : string
}.

Definition option_string_eqb (a b : option string) : bool :=
  match a, b with
  | Some x, Some y => String.eqb x y
  | None, None => true
  | _, _ => false
  end.

(** Comparison of the dependency array [[pathname, initialDomain]]. *)
Definition sameDeps (a b : Route) : bool :=
  String.eqb (pathname a) (pathname b)
  && option_string_eqb (initialDomain a) (initialDomain b).

Inductive Effect : Type :=
| RouterPush (href : string)
| FetchGet (id : nat) (url : string)
| StorageSetItem (key value : string)
| ConsoleError (label message : string).

(** The six [useState] cells of [Home], then what surrounds them: the
    dependencies the route effect last ran with, local storage, the
    [performSearch] calls suspended at [await fetch] (numbered in the order
    of their requests), the effects performed so far (oldest first), and
    whether an exception escaped into React's render. *)
Record World : Type := {
  ensName : string;
  isSearching : bool;
  error : JsVal;
  searchResults : JsVal;
  searchHistory : JsVal;
  showHistory : bool;
  deps : Route;
  localStorage : option string;
  pending : list (nat * string);
  issued : nat;
  log : list Effect;
  crashed : bool
}.

Definition setEnsName (v : string) (w : World) : World :=
  {| ensName := v; isSearching := isSearching w; error := error w;
     searchResults := searchResults w; searchHistory := searchHistory w;
     showHistory := showHistory w; deps := deps w; localStorage := localStorage w;
     pending := pending w; issued := issued w; log := log w; crashed := crashed w |}.

Definition setIsSearching (v : bool) (w : World) : World :=
  {| ensName := ensName w; isSearching := v; error := error w;
     searchResults := searchResults w; searchHistory := searchHistory w;
     showHistory := showHistory w; deps := deps w; localStorage := localStorage w;
     pending := pending w; issued := issued w; log := log w; crashed := crashed w |}.

Definition setError (v : JsVal) (w : World) : World :=
  {| ensName := ensName w; isSearching := isSearching w; error := v;
     searchResults := searchResults w; searchHistory := searchHistory w;
     showHistory := showHistory w; deps := deps w; localStorage := localStorage w;
     pending := pending w; issued := issued w; log := log w; crashed := crashed w |}.

Definition setSearchResults (v : JsVal) (w : World) : World :=
  {| ensName := ensName w; isSearching := isSearching w; error := error w;
     searchResults := v; searchHistory := searchHistory w;
     showHistory := showHistory w; deps := deps w; localStorage := localStorage w;
     pending := pending w; issued := issued w; log := log w; crashed := crashed w |}.

Definition setSearchHistory (v : JsVal) (w : World) : World :=
  {| ensName := ensName w; isSearching := isSearching w; error := error w;
     searchResults := searchResults w; searchHistory := v;
     showHistory := showHistory w; deps := deps w; localStorage := localStorage w;
     pending := pending w; issued := issued w; log := log w; crashed := crashed w |}.

Definition setShowHistory (v : bool) (w : World) : World :=
  {| ensName := ensName w; isSearching := isSearching w; error := error w;
     searchResults := searchResults w; searchHistory := searchHistory w;
     showHistory := v; deps := deps w; localStorage := localStorage w;
     pending := pending w; issued := issued w; log := log w; crashed := crashed w |}.

Definition setDeps (v : Route) (w : World) : World :=
  {| ensName := ensName w; isSearching := isSearching w; error := error w;
     searchResults := searchResults w; searchHistory := searchHistory w;
     showHistory := showHistory w; deps := v; localStorage := localStorage w;
     pending := pending w; issued := issued w; log := log w; crashed := crashed w |}.

Definition emit (e : Effect) (w : World) : World :=
  {| ensName := ensName w; isSearching := isSearching w; error := error w;
     searchResults := searchResults w; searchHistory := searchHistory w;
     showHistory := showHistory w; deps := deps w; localStorage := localStorage w;
     pending := pending w; issued := issued w; log := log w ++ [e];
     crashed := crashed w |}.

Definition setPending (v : list (nat * string)) (n : nat) (w : World) : World :=
  {| ensName := ensName w; isSearching := isSearching w; error := error w;
     searchResults := searchResults w; searchHistory := searchHistory w;
     showHistory := showHistory w; deps := deps w; localStorage := localStorage w;
     pending := v; issued := n; log := log w; crashed := crashed w |}.

Definition setStorage (v : option string) (w : World) : World :=
  {| ensName := ensName w; isSearching := isSearching w; error := error w;
     searchResults := searchResults w; searchHistory := searchHistory w;
     showHistory := showHistory w; deps := deps w; localStorage := v;
     pending := pending w; issued := issued w; log := log w; crashed := crashed w |}.

(** An exception thrown inside a state updater escapes into React's render
    and takes the component down. *)
Definition crash (w : World) : World :=
  {| ensName := ensName w; isSearching := isSearching w; error := error w;
     searchResults := searchResults w; searchHistory := searchHistory w;
     showHistory := showHistory w; deps := deps w; localStorage := localStorage w;
     pending := pending w; issued := issued w; log := log w; crashed := true |}.

(** *** Search history (saveToHistory, lines 86-97) *)

(** The updater handed to [setSearchHistory], on an array of strings. *)
Definition historyUpdater (normalizedName : string) (prev : list string) : list string :=
  let filtered :=
    filter (fun item => negb (String.eqb (toLowerCase item) normalizedName)) prev in
  firstn MAX_SEARCH_HISTORY (normalizedName :: filtered).

(** [prev.filter] with [item.toLowerCase()] needs an array whose items are
    all strings; on anything else it throws a TypeError. *)
Fixpoint asStrings (items : list JsVal) : option (list string) :=
  match items with
  | [] => Some []
  | JStr s :: rest =>
      match asStrings rest with
      | Some l => Some (s :: l)
      | None => None
      end
  | _ :: _ => None
  end.

Definition stringArray (v : JsVal) : option (list string) :=
  match v with
  | JArr items => asStrings items
  | _ => None
  end.

Definition ofStrings (l : list string) : JsVal := JArr (map JStr l).

Definition saveToHistory (name : string) (w : World) : World :=
  let normalizedName := toLowerCase (trim name) in
  if negb (nonEmpty normalizedName) then w
  else
    match stringArray (searchHistory w) with
    | Some prev =>
        let updated := historyUpdater normalizedName prev in
        let stored := JSON_stringify updated in
        setSearchHistory (ofStrings updated)
          (setStorage (Some stored)
             (emit (StorageSetItem SEARCH_HISTORY_KEY stored) w))
    | None => crash w
    end.

(** *** URL update (updateURL, lines 100-107) *)

Definition updateURL (name : string) (w : World) : World :=
  let normalizedName := toLowerCase (trim name) in
  if nonEmpty normalizedName
  then emit (RouterPush ("/" ++ normalizedName)) w
  else emit (RouterPush "/") w.

(** *** performSearch (lines 109-155) *)

(** What [await fetch(...)] and then [await response.json()] deliver. *)
Inductive FetchResult : Type :=
| FetchRejects (message : string)
| FetchResponse (status : Z) (json : Result JsVal).

(** [response.ok] *)
Definition ok (status : Z) : bool := ((200 <=? status) && (status <=? 299))%Z.

(** [fetch(url)]: the request leaves and the caller is suspended. *)
Definition fetch (searchName url : string) (w : World) : World :=
  setPending (pending w ++ [(issued w, searchName)]) (S (issued w))
    (emit (FetchGet (issued w) url) w).

(** [performSearch name] up to its first [await]. *)
Definition performSearch (name : string) (w : World) : World :=
  let searchName := searchNameOf name in
  let w := setIsSearching true w in
  let w := setSearchResults JNull w in
  let w := setError JNull w in
  let w := setShowHistory false w in
  let w := updateURL searchName w in
  fetch searchName ("/api/ens?name=" ++ encodeURIComponent searchName) w.

(** The [catch] block. *)
Definition catchBlock (message : string) (w : World) : World :=
  setError (JStr (orElse message failedMessage))
    (emit (ConsoleError "Error fetching ENS history:" message) w).

(** The [try] block from the point where [fetch] has settled. *)
Definition tryBlock (searchName : string) (r : FetchResult) (w : World) : World :=
  match r with
  | FetchRejects message => catchBlock message w
  | FetchResponse status json =>
      if negb (ok status) then
        match json with
        | Throw message => catchBlock message w
        | Normal errorData =>
            match errorField errorData with
            | Throw message => catchBlock message w
            | Normal e =>
                if (status =? 429)%Z
                then setError (orDefault e rateLimitMessage) w
                else setError (orDefault e failedMessage) w
            end
        end
      else
        match json with
        | Throw message => catchBlock message w
        | Normal data => saveToHistory searchName (setSearchResults data w)
        end
  end.

(** The rest of [performSearch]: [try], then [finally]. *)
Definition resume (searchName : string) (r : FetchResult) (w : World) : World :=
  setIsSearching false (tryBlock searchName r w).

(** *** The effects run on mount and on re-render (lines 40-68) *)

(** The stored item as [localStorage.getItem] returns it, with what
    [JSON.parse] makes of it. *)
Inductive StoredItem : Type :=
| NoItem
| Item (raw : string) (parsed : Result JsVal).

Definition rawOf (stored : StoredItem) : option string :=
  match stored with
  | NoItem => None
  | Item raw _ => Some raw
  end.

(** The history-restore effect.  It installs whatever was parsed; what the
    next render makes of a value that is not an array is not modelled here. *)
Definition restoreHistory (stored : StoredItem) (w : World) : World :=
  match stored with
  | NoItem => w
  | Item raw parsed =>
      if nonEmpty raw then
        match parsed with
        | Normal v => setSearchHistory v w
        | Throw message =>
            emit (ConsoleError "Failed to parse search history:" message) w
        end
      else w
  end.

(** The body of the route effect. *)
Definition routeEffect (r : Route) (w : World) : World :=
  let fromPathname :=
    if nonEmpty (pathname r) && negb (String.eqb (pathname r) "/") then
      let domainFromPath := slice1 (pathname r) in
      if nonEmpty domainFromPath
      then performSearch domainFromPath (setEnsName domainFromPath w)
      else w
    else w in
  match initialDomain r with
  | Some d => if nonEmpty d then performSearch d (setEnsName d w) else fromPathname
  | None => fromPathname
  end.

(** The [useState] initial values. *)
Definition initial (r : Route) (stored : StoredItem) : World :=
  {| ensName := ""; isSearching := false; error := JNull;
     searchResults := JNull; searchHistory := JArr [];
     showHistory := false; deps := r; localStorage := rawOf stored;
     pending := []; issued := 0; log := []; crashed := false |}.

(** First render: both effects run, in the order they are declared. *)
Definition mount (r : Route) (stored : StoredItem) : World :=
  routeEffect r (restoreHistory stored (initial r stored)).

(** A later render: the route effect runs again when [pathname] or
    [initialDomain] differ from the previous render. *)
Definition rerender (r : Route) (w : World) : World :=
  if sameDeps (deps w) r then w else routeEffect r (setDeps r w).

(** [DomainPage] (src/app/[domain]/page.tsx): the [initialDomain] it hands
    to [Home], given what [decodeURIComponent(domain)] yields. *)
Definition DomainPage (decodedDomain : Result string) : Result (option string) :=
  match decodedDomain with
  | Normal d => Normal (Some d)
  | Throw message => Throw message
  end.

(** The route [/], served by [Home] without props. *)
Definition rootRoute : Route := {| initialDomain := None; pathname := "/" |}.

(** *** Events *)

(** What can happen to a mounted [Home]: it is rendered again with the
    current route, a leaderboard entry is clicked (the leaderboard is not
    disabled while a search is running), or the request numbered [id]
    settles and the [performSearch] call that sent it goes on. *)
Inductive Event : Type :=
| Render (r : Route)
| LeaderboardClick (name : string)
| Respond (id : nat) (r : FetchResult).

Fixpoint findPending (id : nat) (l : list (nat * string)) : option string :=
  match l with
  | [] => None
  | (i, searchName) :: rest =>
      if Nat.eqb i id then Some searchName else findPending id rest
  end.

Definition dropPending (id : nat) (l : list (nat * string)) : list (nat * string) :=
  filter (fun p => negb (Nat.eqb (fst p) id)) l.

(** [handleLeaderboardClick] (the scroll is not modelled). *)
Definition handleLeaderboardClick (name : string) (w : World) : World :=
  performSearch name (setEnsName name w).

Definition step (w : World) (e : Event) : World :=
  if crashed w then w
  else
    match e with
    | Render r => rerender r w
    | LeaderboardClick name => handleLeaderboardClick name w
    | Respond id r =>
        match findPending id (pending w) with
        | Some searchName =>
            resume searchName r (setPending (dropPending id (pending w)) (issued w) w)
        | None => w
        end
    end.

Definition run (events : list Event) (w : World) : World :=
  fold_left step events w.

(** *** What the results area shows (lines 353-393) *)

(** The branch the conditional takes and the value it hands to the markup.
    Whether React can then render that value is not part of [view]: a
    string message is rendered as text, an object given as a child makes
    the render throw. *)

Inductive SearchState : Type :=
| Idle
| Loading
| Error (message : JsVal)
| Success (result : JsVal).

Definition view (w : World) : SearchState :=
  if truthy (error w) then Error (error w)
  else if isSearching w then Loading
  else if truthy (searchResults w) then Success (searchResults w)
  else Idle.

(** *** Derived notions used to state the properties *)

(** What one settled [fetch] amounts to for [performSearch]: the value it
    passes to [setError], or the data it passes to [setSearchResults]. *)
Inductive Outcome : Type :=
| Failed (message : JsVal)
| Succeeded (data : JsVal).

Definition caught (message : string) : Outcome :=
  Failed (JStr (orElse message failedMessage)).

Definition outcome (r : FetchResult) : Outcome :=
  match r with
  | FetchRejects message => caught message
  | FetchResponse status (Throw message) => caught message
  | FetchResponse status (Normal body) =>
      if ok status then Succeeded body
      else
        match errorField body with
        | Throw message => caught message
        | Normal e =>
            Failed (orDefault e (if (status =? 429)%Z then rateLimitMessage
                                 else failedMessage))
        end
  end.

(** [saveToHistory] on a well-formed history. *)
Definition recordTerm (name : string) (prev : list string) : list string :=
  if negb (nonEmpty (normalizedName name)) then prev
  else historyUpdater (normalizedName name) prev.

Definition present (v : JsVal) : bool := negb (isNull v).

(** How many of loading, error and result are set. *)
Definition activeCells (w : World) : nat :=
  Nat.b2n (isSearching w) + Nat.b2n (present (error w))
  + Nat.b2n (present (searchResults w)).

(** The requests sent and the URLs pushed so far. *)
Fixpoint requests (l : list Effect) : list string :=
  match l with
  | [] => []
  | FetchGet _ url :: rest => url :: requests rest
  | _ :: rest => requests rest
  end.

Fixpoint pushes (l : list Effect) : list string :=
  match l with
  | [] => []
  | RouterPush href :: rest => href :: pushes rest
  | _ :: rest => pushes rest
  end.

Definition apiUrl (searchName : string) : string :=
  "/api/ens?name=" ++ encodeURIComponent searchName.

(** The history invariant. *)
Definition wellKept (h : list string) : Prop :=
  List.length h <= MAX_SEARCH_HISTORY /\ NoDup (map toLowerCase h).

(** The request of a click, then its response. *)
Definition searchThenRespond (name : string) (r : FetchResult) (w : World) : World :=
  run [LeaderboardClick name; Respond (issued w) r] w.

(** Nothing has been thrown and the history is an array of strings. *)
Definition healthy (w : World) : Prop :=
  crashed w = false /\ exists h, searchHistory w = ofStrings h.

(** One outcome written over the error and result cells. *)
Definition applyOutcome (o : Outcome) (cells : JsVal * JsVal) : JsVal * JsVal :=
  match o with
  | Failed m => (m, snd cells)
  | Succeeded d => (fst cells, d)
  end.

Definition cells (w : World) : JsVal * JsVal := (error w, searchResults w).

(** ** The remaining handlers of [Home] *)

(** [handleSearch] (lines 157-161); [preventDefault] is not modelled. *)
Definition handleSearch (w : World) : World :=
  if negb (nonEmpty (trim (ensName w))) then w
  else performSearch (ensName w) w.

(** [handleHistoryClick] (lines 175-179). *)
Definition handleHistoryClick (name : string) (w : World) : World :=
  performSearch name (setShowHistory false (setEnsName name w)).

(** The list [removeFromHistory] keeps, on an array of strings. *)
Definition removeUpdater (name : string) (prev : list string) : list string :=
  filter (fun item => negb (String.eqb (toLowerCase item) (toLowerCase name))) prev.

(** [removeFromHistory] (lines 181-192); [stopPropagation] is not
    modelled.  As in [saveToHistory], the updater throws on a history that
    is not an array of strings. *)
Definition removeFromHistory (name : string) (w : World) : World :=
  match stringArray (searchHistory w) with
  | Some prev =>
      let updated := removeUpdater name prev in
      let stored := JSON_stringify updated in
      let w := setStorage (Some stored)
                 (emit (StorageSetItem SEARCH_HISTORY_KEY stored) w) in
      let w := if Nat.eqb (List.length updated) 0 then setShowHistory false w else w in
      setSearchHistory (ofStrings updated) w
  | None => crash w
  end.

(** The input's [onChange] (line 284). *)
Definition handleChange (value : string) (w : World) : World :=
  setEnsName (toLowerCase value) w.

(** The history button (line 294) and the dropdown's close button (line 314). *)
Definition toggleHistory (w : World) : World :=
  setShowHistory (negb (showHistory w)) w.

Definition closeHistory (w : World) : World := setShowHistory false w.

(** [handleClickOutside] (lines 72-77); [inside] tells whether the click
    landed in the search-history container. *)
Definition handleClickOutside (inside : bool) (w : World) : World :=
  if showHistory w && negb inside then setShowHistory false w else w.

(** Every way the handlers can be invoked.  The page allows fewer
    sequences than this (the form is disabled while a search runs, a
    history entry can only be clicked or removed while it is listed), so
    what holds after every sequence of these holds on the page. *)
Inductive UiEvent : Type :=
| Core (e : Event)
| Submit
| Change (value : string)
| HistoryClick (name : string)
| Remove (name : string)
| ToggleHistory
| CloseHistory
| MouseDown (inside : bool).

Definition uiStep (w : World) (e : UiEvent) : World :=
  if crashed w then w
  else
    match e with
    | Core e => step w e
    | Submit => handleSearch w
    | Change value => handleChange value w
    | HistoryClick name => handleHistoryClick name w
    | Remove name => removeFromHistory name w
    | ToggleHistory => toggleHistory w
    | CloseHistory => closeHistory w
    | MouseDown inside => handleClickOutside inside w
    end.

Definition uiRun (events : list UiEvent) (w : World) : World :=
  fold_left uiStep events w.

(** The stored item leaves the history empty on mount: there is none, it
    is the empty string, or it does not parse. *)
Definition restoresNothing (stored : StoredItem) : bool :=
  match stored with
  | NoItem => true
  | Item raw (Throw _) => true
  | Item raw (Normal _) => negb (nonEmpty raw)
  end.

(** A response that reaches [setSearchResults]. *)
Definition isSuccess (r : FetchResult) : bool :=
  match r with
  | FetchResponse status (Normal _) => ok status
  | _ => false
  end.

(** A term as [performSearch] sends it: normalising it again changes nothing. *)
Definition canonical (n : string) : Prop := searchNameOf n = n.

(** The URL [performSearch] pushes for a search name, and the name read
    back from it. *)
Definition pathOf (searchName : string) : string := "/" ++ searchName.

Fixpoint storageWrites (l : list Effect) : list (string * string) :=
  match l with
  | [] => []
  | StorageSetItem key value :: rest => (key, value) :: storageWrites rest
  | _ :: rest => storageWrites rest
  end.

(** What holds of the history, its stored copy, the requests in flight and
    the effects performed, in every state the handlers can reach from a
    mount that restored nothing; [s0] is the stored string found then. *)
Record Sound (s0 : option string) (w : World) : Prop := {
  sound_alive : crashed w = false;
  sound_history : exists h,
    searchHistory w = ofStrings h
    /\ wellKept h
    /\ Forall canonical h
    /\ (localStorage w = Some (JSON_stringify h)
          /\ last (storageWrites (log w)) (SEARCH_HISTORY_KEY, "")
             = (SEARCH_HISTORY_KEY, JSON_stringify h)
        \/ localStorage w = s0 /\ h = [] /\ storageWrites (log w) = []);
  sound_pending : Forall (fun p => canonical (snd p)) (pending w);
  sound_pushes : Forall (fun href => exists n, href = pathOf n /\ canonical n)
                   (pushes (log w));
  sound_requests : requests (log w) = map (fun href => apiUrl (slice1 href)) (pushes (log w));
  sound_keys : Forall (fun kv => fst kv = SEARCH_HISTORY_KEY) (storageWrites (log w))
}.

(** The part of the world [Sound] speaks of. *)
Definition core (w : World)
  : bool * JsVal * option string * list (nat * string) * list Effect :=
  (crashed w, searchHistory w, localStorage w, pending w, log w).

(** Characters that can stand in a query value as they are, and the
    percent sign of an escape. *)
Definition urlSafe (c : ascii) : bool := isUnreserved c || Ascii.eqb c "%".

(** ** Notions used to state what runs of the page do *)

(** The term the route effect searches at a route, if it searches. *)
Definition routeTerm (r : Route) : option string :=
  let fromPathname :=
    if nonEmpty (pathname r) && negb (String.eqb (pathname r) "/") then
      if nonEmpty (slice1 (pathname r)) then Some (slice1 (pathname r)) else None
    else None in
  match initialDomain r with
  | Some d => if nonEmpty d then Some d else fromPathname
  | None => fromPathname
  end.

(** Of the renders [rs] that follow a render at [prev], those whose
    pathname or initialDomain differ from the render before them. *)
Fixpoint changedRenders (prev : Route) (rs : list Route) : list Route :=
  match rs with
  | [] => []
  | r :: rest =>
      if sameDeps prev r then changedRenders prev rest
      else r :: changedRenders r rest
  end.

(** The lookups of the terms of these routes, one for each route with a term. *)
Fixpoint lookupsOf (rs : list Route) : list string :=
  match rs with
  | [] => []
  | r :: rest =>
      match routeTerm r with
      | Some t => apiUrl (searchNameOf t) :: lookupsOf rest
      | None => lookupsOf rest
      end
  end.

Definition isSome {A} (o : option A) : bool :=
  match o with Some _ => true | None => false end.

Definition noneInFlight (w : World) : bool :=
  match pending w with [] => true | _ :: _ => false end.

(** Whether the event, in this state, calls [performSearch]. *)
Definition startsSearch (w : World) (e : UiEvent) : bool :=
  negb (crashed w) &&
  match e with
  | Core (Render r) => negb (sameDeps (deps w) r) && isSome (routeTerm r)
  | Core (LeaderboardClick _) => true
  | Core (Respond _ _) => false
  | Submit => nonEmpty (trim (ensName w))
  | HistoryClick _ => true
  | Change _ | Remove _ | ToggleHistory | CloseHistory | MouseDown _ => false
  end.

(** Searches do not overlap in a run: no event starts a search while a
    request is in flight. *)
Fixpoint nonOverlapping (events : list UiEvent) (w : World) : bool :=
  match events with
  | [] => true
  | e :: rest =>
      (negb (startsSearch w e) || noneInFlight w) && nonOverlapping rest (uiStep w e)
  end.

(** The states a run passes through, in order. *)
Fixpoint uiStates (events : list UiEvent) (w : World) : list World :=
  match events with
  | [] => []
  | e :: rest => uiStep w e :: uiStates rest (uiStep w e)
  end.

(** The truthy [error] field of a response that is not ok, which
    [performSearch] hands to [setError] as it is. *)
Definition serverMessage (r : FetchResult) : option JsVal :=
  match r with
  | FetchResponse status (Normal body) =>
      if ok status then None
      else
        match errorField body with
        | Normal (Some v) => if truthy v then Some v else None
        | _ => None
        end
  | _ => None
  end.

(** * Properties *)

Section StringFacts.

Ltac by_cases_on c := destruct c as [[] [] [] [] [] [] [] []]; reflexivity.

Lemma lowerChar_idem c : lowerChar (lowerChar c) = lowerChar c.
Proof. by_cases_on c. Qed.

Lemma isWhiteSpace_lowerChar c : isWhiteSpace (lowerChar c) = isWhiteSpace c.
Proof. by_cases_on c. Qed.

Lemma toLowerCase_idem s : toLowerCase (toLowerCase s) = toLowerCase s.
Proof.
  induction s as [|c r IH]; simpl; [reflexivity|].
  now rewrite lowerChar_idem, IH.
Qed.

Lemma toLowerCase_app s t : toLowerCase (s ++ t) = toLowerCase s ++ toLowerCase t.
Proof. induction s as [|c r IH]; simpl; [reflexivity | now rewrite IH]. Qed.

Lemma trimStart_toLowerCase s : trimStart (toLowerCase s) = toLowerCase (trimStart s).
Proof.
  induction s as [|c r IH]; simpl; [reflexivity|].
  rewrite isWhiteSpace_lowerChar. destruct (isWhiteSpace c); [exact IH | reflexivity].
Qed.

Lemma trimEnd_toLowerCase s : trimEnd (toLowerCase s) = toLowerCase (trimEnd s).
Proof.
  induction s as [|c r IH]; simpl; [reflexivity|].
  rewrite IH, isWhiteSpace_lowerChar.
  destruct (trimEnd r); simpl; [destruct (isWhiteSpace c)|]; reflexivity.
Qed.

Lemma trim_toLowerCase s : trim (toLowerCase s) = toLowerCase (trim s).
Proof. unfold trim. now rewrite trimStart_toLowerCase, trimEnd_toLowerCase. Qed.

Lemma trimEnd_idem s : trimEnd (trimEnd s) = trimEnd s.
Proof.
  induction s as [|c r IH]; simpl; [reflexivity|].
  destruct (trimEnd r) as [|d t] eqn:E.
  - destruct (isWhiteSpace c) eqn:W; simpl; [reflexivity | now rewrite W].
  - change (trimEnd (String c (String d t))) with
      (match trimEnd (String d t) with
       | "" => if isWhiteSpace c then "" else String c ""
       | u => String c u end).
    now rewrite IH.
Qed.

(** [trimEnd] keeps the first character, or erases the string. *)
Lemma trimEnd_head c r :
  trimEnd (String c r) = "" \/ exists t, trimEnd (String c r) = String c t.
Proof.
  simpl. destruct (trimEnd r); [destruct (isWhiteSpace c)|]; eauto.
Qed.

Lemma trimStart_head s :
  trimStart s = "" \/ exists c t, trimStart s = String c t /\ isWhiteSpace c = false.
Proof.
  induction s as [|c r IH]; simpl; [now left|].
  destruct (isWhiteSpace c) eqn:W; [exact IH | right; eauto].
Qed.

Lemma trimStart_fix c t : isWhiteSpace c = false -> trimStart (String c t) = String c t.
Proof. intros W; simpl; now rewrite W. Qed.

Lemma trimStart_trim s : trimStart (trim s) = trim s.
Proof.
  unfold trim. destruct (trimStart_head s) as [E | (c & t & E & W)]; rewrite E.
  - reflexivity.
  - destruct (trimEnd_head c t) as [E' | [u E']]; rewrite E'; [reflexivity|].
    now apply trimStart_fix.
Qed.

Lemma trim_idem s : trim (trim s) = trim s.
Proof.
  unfold trim at 1. rewrite trimStart_trim. unfold trim. apply trimEnd_idem.
Qed.

(** Appending a suffix that [trimEnd] leaves alone protects what precedes it. *)
Lemma trimEnd_app s c t :
  trimEnd (String c t) = String c t -> trimEnd (s ++ String c t) = s ++ String c t.
Proof.
  intros F. induction s as [|d r IH]; [exact F|].
  cbn [append trimEnd]. fold trimEnd. rewrite IH. destruct r; reflexivity.
Qed.

Lemma trim_app_eth s : trim s = s -> trim (s ++ ".eth") = s ++ ".eth".
Proof.
  intros T. unfold trim.
  assert (S : trimStart (s ++ ".eth") = s ++ ".eth").
  { rewrite <- T at 1. rewrite <- T at 2. unfold trim.
    destruct (trimStart_head s) as [E | (c & t & E & W)]; rewrite E.
    - reflexivity.
    - destruct (trimEnd_head c t) as [E' | [u E']]; rewrite E'; [reflexivity|].
      simpl. now rewrite W. }
  rewrite S. now apply trimEnd_app.
Qed.

Lemma endsWith_refl s : endsWith s s = true.
Proof. destruct s; cbn [endsWith]; rewrite String.eqb_refl; reflexivity. Qed.

Lemma endsWith_app s t : endsWith (s ++ t) t = true.
Proof.
  induction s as [|c r IH]; [apply endsWith_refl|].
  cbn [append endsWith]. fold endsWith. rewrite IH. apply orb_true_r.
Qed.

Lemma endsWith_nonEmpty s c t : endsWith s (String c t) = true -> nonEmpty s = true.
Proof. destruct s; simpl; [discriminate | reflexivity]. Qed.

End StringFacts.

(** What [searchNameOf] yields is left alone by [trim] and [toLowerCase]
    and carries the suffix. *)
Lemma searchNameOf_trim x : trim (searchNameOf x) = searchNameOf x.
Proof.
  unfold searchNameOf.
  assert (T : trim (toLowerCase (trim x)) = toLowerCase (trim x))
    by now rewrite trim_toLowerCase, trim_idem.
  destruct (endsWith (toLowerCase (trim x)) ".eth"); simpl;
    [exact T | now apply trim_app_eth].
Qed.

Lemma searchNameOf_lower x : toLowerCase (searchNameOf x) = searchNameOf x.
Proof.
  unfold searchNameOf.
  destruct (endsWith (toLowerCase (trim x)) ".eth"); simpl.
  - apply toLowerCase_idem.
  - now rewrite toLowerCase_app, toLowerCase_idem.
Qed.

Lemma searchNameOf_suffix x : endsWith (searchNameOf x) ".eth" = true.
Proof.
  unfold searchNameOf.
  destruct (endsWith (toLowerCase (trim x)) ".eth") eqn:E; simpl;
    [exact E | apply endsWith_app].
Qed.

Lemma normalizedName_searchNameOf x : normalizedName (searchNameOf x) = searchNameOf x.
Proof. unfold normalizedName. now rewrite searchNameOf_trim, searchNameOf_lower. Qed.

Lemma searchNameOf_nonEmpty x : nonEmpty (searchNameOf x) = true.
Proof. eapply endsWith_nonEmpty, searchNameOf_suffix. Qed.

(** ** Frame lemmas: what each operation leaves alone *)

Section Frames.

Variables (name : string) (w : World).

Lemma performSearch_cells :
  isSearching (performSearch name w) = true
  /\ error (performSearch name w) = JNull
  /\ searchResults (performSearch name w) = JNull
  /\ showHistory (performSearch name w) = false.
Proof.
  unfold performSearch, fetch, updateURL.
  destruct (nonEmpty (toLowerCase (trim (searchNameOf name)))); repeat split.
Qed.

Lemma performSearch_frame :
  searchHistory (performSearch name w) = searchHistory w
  /\ localStorage (performSearch name w) = localStorage w
  /\ crashed (performSearch name w) = crashed w
  /\ ensName (performSearch name w) = ensName w
  /\ deps (performSearch name w) = deps w.
Proof.
  unfold performSearch, fetch, updateURL.
  destruct (nonEmpty (toLowerCase (trim (searchNameOf name)))); repeat split.
Qed.

Lemma performSearch_pending :
  pending (performSearch name w) = (pending w ++ [(issued w, searchNameOf name)])%list
  /\ issued (performSearch name w) = S (issued w).
Proof.
  unfold performSearch, fetch, updateURL.
  destruct (nonEmpty (toLowerCase (trim (searchNameOf name)))); repeat split.
Qed.

Lemma performSearch_log :
  log (performSearch name w) =
  (log w ++ [RouterPush ("/" ++ searchNameOf name);
             FetchGet (issued w) (apiUrl (searchNameOf name))])%list.
Proof.
  unfold performSearch, fetch, updateURL.
  fold (normalizedName (searchNameOf name)).
  rewrite normalizedName_searchNameOf, searchNameOf_nonEmpty.
  cbn. now rewrite <- app_assoc.
Qed.

Lemma saveToHistory_frame :
  isSearching (saveToHistory name w) = isSearching w
  /\ error (saveToHistory name w) = error w
  /\ searchResults (saveToHistory name w) = searchResults w
  /\ pending (saveToHistory name w) = pending w
  /\ issued (saveToHistory name w) = issued w.
Proof.
  unfold saveToHistory.
  destruct (nonEmpty (toLowerCase (trim name))); cbn; [|repeat split].
  destruct (stringArray (searchHistory w)); repeat split.
Qed.

End Frames.

Lemma asStrings_map l : asStrings (map JStr l) = Some l.
Proof. induction l as [|s l IH]; cbn; [reflexivity | now rewrite IH]. Qed.

Lemma stringArray_ofStrings l : stringArray (ofStrings l) = Some l.
Proof. apply asStrings_map. Qed.

Lemma ofStrings_inj l l' : ofStrings l = ofStrings l' -> l = l'.
Proof.
  intros H. apply (f_equal stringArray) in H.
  rewrite !stringArray_ofStrings in H. now injection H.
Qed.


(** On an array of strings [saveToHistory] is [recordTerm] and throws nothing. *)
Lemma saveToHistory_strings name w prev :
  searchHistory w = ofStrings prev ->
  searchHistory (saveToHistory name w) = ofStrings (recordTerm name prev)
  /\ crashed (saveToHistory name w) = crashed w.
Proof.
  intros H. unfold saveToHistory, recordTerm, normalizedName.
  destruct (nonEmpty (toLowerCase (trim name))); cbn; [|now split].
  rewrite H, stringArray_ofStrings. now split.
Qed.

(** ** The history list *)

Section History.

Lemma NoDup_firstn {A} (l : list A) n : NoDup l -> NoDup (firstn n l).
Proof.
  intros H. rewrite <- (firstn_skipn n l) in H.
  now apply NoDup_app_remove_r in H.
Qed.

Lemma In_firstn {A} (x : A) n l : In x (firstn n l) -> In x l.
Proof.
  intros H. rewrite <- (firstn_skipn n l). apply in_or_app. now left.
Qed.

Lemma NoDup_map_filter {A B} (f : A -> B) (p : A -> bool) l :
  NoDup (map f l) -> NoDup (map f (filter p l)).
Proof.
  induction l as [|a l IH]; cbn; [trivial|].
  intros H. inversion H as [|? ? Hn Hd]; subst.
  destruct (p a); cbn; [constructor|]; auto.
  intros Hin. apply Hn. apply in_map_iff in Hin as (x & E & Hx).
  apply in_map_iff. exists x. split; [exact E|]. now apply filter_In in Hx.
Qed.

Lemma historyUpdater_cons n prev :
  historyUpdater n prev =
  n :: firstn 9 (filter (fun item => negb (String.eqb (toLowerCase item) n)) prev).
Proof. reflexivity. Qed.

Lemma removed_not_in n prev k :
  ~ In n (map toLowerCase
            (firstn k (filter (fun item => negb (String.eqb (toLowerCase item) n)) prev))).
Proof.
  intros Hin. apply in_map_iff in Hin as (x & E & Hx).
  apply In_firstn, filter_In in Hx as [_ Hx].
  rewrite E, String.eqb_refl in Hx. discriminate.
Qed.

Lemma recordTerm_wellKept name prev : wellKept prev -> wellKept (recordTerm name prev).
Proof.
  intros [Hl Hd]. unfold recordTerm.
  destruct (nonEmpty (normalizedName name)); cbn [negb]; [|now split].
  rewrite historyUpdater_cons. split.
  - cbn [List.length]. rewrite length_firstn. unfold MAX_SEARCH_HISTORY. lia.
  - cbn [map]. unfold normalizedName at 1. rewrite toLowerCase_idem.
    constructor; [apply removed_not_in|].
    rewrite <- firstn_map. apply NoDup_firstn. now apply NoDup_map_filter.
Qed.

Lemma saveToHistory_fold names : forall w prev,
  searchHistory w = ofStrings prev -> wellKept prev ->
  exists h,
    searchHistory (fold_left (fun w n => saveToHistory n w) names w) = ofStrings h
    /\ crashed (fold_left (fun w n => saveToHistory n w) names w) = crashed w
    /\ wellKept h.
Proof.
  induction names as [|n names IH]; intros w prev Hw Hk; cbn.
  - now exists prev.
  - destruct (saveToHistory_strings n w prev Hw) as [Hs Hc].
    destruct (IH _ _ Hs (recordTerm_wellKept n prev Hk)) as (h & E & C & K).
    exists h. repeat split; [exact E | now rewrite C | apply K | apply K].
Qed.

End History.

(** C5. Normalisation ([trim], [toLowerCase], then [.eth] appended unless
    already the suffix) is idempotent, and every normalised term is
    lower-cased and ends in [.eth]. *)
Theorem normalization_idempotent (x : string) :
  searchNameOf (searchNameOf x) = searchNameOf x
  /\ toLowerCase (searchNameOf x) = searchNameOf x
  /\ endsWith (searchNameOf x) ".eth" = true.
Proof.
  split; [|split; [apply searchNameOf_lower | apply searchNameOf_suffix]].
  unfold searchNameOf at 1.
  rewrite searchNameOf_trim, searchNameOf_lower, searchNameOf_suffix.
  reflexivity.
Qed.

(** C6. Whatever sequence of names [saveToHistory] is called with, starting
    from the empty history, no exception is thrown and the history is an
    array of at most 10 strings, no two of them equal ignoring case; and a
    further call with a name that is not blank puts the trimmed,
    lower-cased name at the front, followed by the previous entries without
    any that equals it ignoring case, cut to 9. *)
Theorem history_bounded_distinct_recent_first
  (r : Route) (stored : StoredItem) (names : list string) :
  let w := fold_left (fun w n => saveToHistory n w) names (initial r stored) in
  exists h,
    searchHistory w = ofStrings h
    /\ crashed w = false
    /\ List.length h <= 10
    /\ NoDup (map toLowerCase h)
    /\ forall name, nonEmpty (normalizedName name) = true ->
         let kept :=
           firstn 9 (filter (fun item =>
                               negb (String.eqb (toLowerCase item) (normalizedName name))) h) in
         searchHistory (saveToHistory name w) = ofStrings (normalizedName name :: kept)
         /\ ~ In (normalizedName name) (map toLowerCase kept).
Proof.
  intros w.
  destruct (saveToHistory_fold names (initial r stored) [])
    as (h & E & C & Hl & Hd); [reflexivity | split; [cbn; lia | constructor] |].
  exists h. fold w in E, C. repeat split; try assumption.
  - destruct (saveToHistory_strings name w h E) as [Hs _].
    rewrite Hs. unfold recordTerm. now rewrite H.
  - apply removed_not_in.
Qed.

Lemma history_bounded_distinct_recent_first_witness :
  let w := fold_left (fun w n => saveToHistory n w) ["Ens.eth"; " a.eth "]
             (initial rootRoute NoItem) in
  searchHistory w = ofStrings ["a.eth"; "ens.eth"]
  /\ searchHistory (saveToHistory "ENS.ETH" w) = ofStrings ["ens.eth"; "a.eth"].
Proof.
  destruct (history_bounded_distinct_recent_first rootRoute NoItem ["Ens.eth"; " a.eth "])
    as (h & E & _ & _ & _ & F).
  split; [reflexivity|].
  assert (Eh : h = ["a.eth"; "ens.eth"]).
  { apply ofStrings_inj. rewrite <- E. reflexivity. }
  subst h. destruct (F "ENS.ETH" eq_refl) as [G _]. exact G.
Defined.

(** ** One settled request *)

Section Resume.

Variables (searchName : string) (w : World).

(** [resume] writes what [outcome] says and clears the loading flag. *)
Lemma resume_cells r :
  isSearching (resume searchName r w) = false
  /\ error (resume searchName r w) =
       match outcome r with Failed m => m | Succeeded _ => error w end
  /\ searchResults (resume searchName r w) =
       match outcome r with Failed _ => searchResults w | Succeeded d => d end
  /\ pending (resume searchName r w) = pending w
  /\ issued (resume searchName r w) = issued w.
Proof.
  unfold resume, tryBlock, outcome, caught.
  destruct r as [m | status [body | m]];
    [repeat split | | destruct (ok status); repeat split].
  destruct (ok status); cbn [negb].
  - destruct (saveToHistory_frame searchName (setSearchResults body w))
      as (_ & E & R & P & I).
    repeat split; cbn; assumption.
  - destruct (errorField body) as [e | m]; [|repeat split].
    destruct (status =? 429)%Z; repeat split.
Qed.

(** Only a successful response reaches [saveToHistory]. *)
Lemma resume_history r :
  searchHistory (resume searchName r w) =
    match outcome r with
    | Failed _ => searchHistory w
    | Succeeded _ => searchHistory (saveToHistory searchName w)
    end
  /\ localStorage (resume searchName r w) =
    match outcome r with
    | Failed _ => localStorage w
    | Succeeded _ => localStorage (saveToHistory searchName w)
    end
  /\ crashed (resume searchName r w) =
    match outcome r with
    | Failed _ => crashed w
    | Succeeded _ => crashed (saveToHistory searchName w)
    end.
Proof.
  unfold resume, tryBlock, outcome, caught.
  destruct r as [m | status [body | m]];
    [repeat split | | destruct (ok status); repeat split].
  destruct (ok status); cbn [negb].
  - unfold saveToHistory.
    destruct (nonEmpty (toLowerCase (trim searchName))); cbn; [|repeat split].
    destruct (stringArray (searchHistory w)); repeat split.
  - destruct (errorField body) as [e | m]; [|repeat split].
    destruct (status =? 429)%Z; repeat split.
Qed.

End Resume.

(** C7. Within one [performSearch], [router.push] of the normalised term
    comes right before the request is sent, and these are all the effects
    of its start, which leaves the history and its stored copy alone.  When
    the request is rejected, or the response is not ok, the rest of the
    search leaves them alone as well; in general they change only when the
    outcome is a success, and then to what [saveToHistory] makes them. *)
Theorem url_before_request_history_after_success
  (name : string) (r : FetchResult) (w : World) :
  log (performSearch name w) =
    (log w ++ [RouterPush ("/" ++ searchNameOf name);
               FetchGet (issued w) (apiUrl (searchNameOf name))])%list
  /\ searchHistory (performSearch name w) = searchHistory w
  /\ localStorage (performSearch name w) = localStorage w
  /\ (forall message,
        searchHistory (resume (searchNameOf name) (FetchRejects message) w)
        = searchHistory w)
  /\ (forall status json, ok status = false ->
        searchHistory (resume (searchNameOf name) (FetchResponse status json) w)
        = searchHistory w)
  /\ searchHistory (resume (searchNameOf name) r w) =
       match outcome r with
       | Failed _ => searchHistory w
       | Succeeded _ => searchHistory (saveToHistory (searchNameOf name) w)
       end
  /\ localStorage (resume (searchNameOf name) r w) =
       match outcome r with
       | Failed _ => localStorage w
       | Succeeded _ => localStorage (saveToHistory (searchNameOf name) w)
       end.
Proof.
  destruct (performSearch_frame name w) as (H & S & _).
  destruct (resume_history (searchNameOf name) w r) as (H' & S' & _).
  split; [apply performSearch_log|].
  repeat (split; [assumption|]).
  split; [|split; [|split; assumption]].
  - intros message.
    now destruct (resume_history (searchNameOf name) w (FetchRejects message)).
  - intros status json K.
    destruct (resume_history (searchNameOf name) w (FetchResponse status json))
      as (G & _).
    rewrite G. unfold outcome. rewrite K.
    destruct json as [body | m]; [|reflexivity].
    now destruct (errorField body).
Qed.

Lemma url_before_request_witness :
  let w := mount rootRoute NoItem in
  log (performSearch " ENS " w)
  = [RouterPush "/ens.eth"; FetchGet 0 "/api/ens?name=ens.eth"]
  /\ searchHistory (resume "ens.eth" (FetchResponse 429 (Normal JNull)) w)
     = JArr [].
Proof.
  destruct (url_before_request_history_after_success
              " ENS " (FetchRejects "") (mount rootRoute NoItem))
    as (L & _ & _ & _ & E & _).
  split; [exact L | exact (E 429%Z (Normal JNull) eq_refl)].
Defined.

Lemma searchThenRespond_resume name r w :
  crashed w = false -> pending w = [] ->
  searchThenRespond name r w =
  resume (searchNameOf name) r
    (setPending [] (S (issued w)) (performSearch name (setEnsName name w))).
Proof.
  intros C P. unfold searchThenRespond, run. cbn [fold_left].
  unfold step at 2. rewrite C. unfold handleLeaderboardClick.
  unfold step.
  destruct (performSearch_frame name (setEnsName name w)) as (_ & _ & C' & _).
  destruct (performSearch_pending name (setEnsName name w)) as (P' & I').
  cbn [pending issued crashed setEnsName] in C', P', I'.
  rewrite C', C, P', P, I'. cbn [app findPending dropPending filter fst].
  rewrite Nat.eqb_refl. reflexivity.
Qed.

(** C2 as amended. On a 429 response whose body is a JSON object with a
    non-empty string as [error] field, the error shown is that string: for
    the body [{error: slow down}] it is the server's text.  The rate-limit
    message is shown when the field is absent or falsy. *)
Theorem rate_limited_prefers_server_message
  (searchName : string) (fields : list (string * JsVal)) (w : World) :
  let w' := resume searchName (FetchResponse 429 (Normal (JObj fields))) w in
  (forall s, getField "error" fields = Some (JStr s) -> nonEmpty s = true ->
     view w' = Error (JStr s))
  /\ (forall v, getField "error" fields = Some v -> truthy v = false ->
     view w' = Error (JStr rateLimitMessage))
  /\ (getField "error" fields = None -> view w' = Error (JStr rateLimitMessage))
  /\ view (resume searchName
             (FetchResponse 429 (Normal (JObj [("error", JStr "slow down")]))) w)
     = Error (JStr "slow down").
Proof.
  intros w'. unfold w', view, resume, tryBlock. cbn.
  repeat split.
  - intros s E N. rewrite E. cbn. rewrite N. cbn. now rewrite N.
  - intros v E T. rewrite E. cbn. now rewrite T.
  - intros E. now rewrite E.
Qed.

Lemma rate_limited_witness :
  let w := mount rootRoute NoItem in
  view (resume "ens.eth"
          (FetchResponse 429 (Normal (JObj [("error", JStr "slow down")]))) w)
  = Error (JStr "slow down")
  /\ view (resume "ens.eth" (FetchResponse 429 (Normal (JObj []))) w)
     = Error (JStr rateLimitMessage).
Proof.
  intros w. split.
  - exact (proj1 (rate_limited_prefers_server_message "ens.eth"
                    [("error", JStr "slow down")] w) "slow down" eq_refl eq_refl).
  - exact (proj1 (proj2 (proj2 (rate_limited_prefers_server_message "ens.eth" [] w)))
             eq_refl).
Defined.

(** C2 as stated fails: a click on a name, answered by 429 with the body
    [{error: slow down}], ends in the error state with the server's text,
    not with the rate-limit message. *)
Lemma rate_limited_counterexample :
  let body := JObj [("error", JStr "slow down")] in
  let w := searchThenRespond "ens" (FetchResponse 429 (Normal body))
             (mount rootRoute NoItem) in
  view w = Error (JStr "slow down")
  /\ view w <> Error (JStr rateLimitMessage).
Proof. split; [reflexivity | discriminate]. Qed.

(** C3 as amended. On a response that is not ok and whose body does not
    parse, the error shown is the parse exception's message, and the default
    message only when that message is empty. *)
Theorem unparseable_error_body_shows_exception_message
  (searchName : string) (status : Z) (message : string) (w : World) :
  ok status = false ->
  view (resume searchName (FetchResponse status (Throw message)) w) =
    Error (JStr (if nonEmpty message then message else failedMessage)).
Proof.
  intros H. unfold view, resume, tryBlock. rewrite H. cbn.
  unfold orElse. destruct (nonEmpty message) eqn:E; cbn; [now rewrite E | reflexivity].
Qed.

Lemma unparseable_error_body_witness :
  ok 500 = false
  /\ view (resume "ens.eth" (FetchResponse 500 (Throw "")) (mount rootRoute NoItem))
     = Error (JStr failedMessage).
Proof.
  split; [reflexivity|].
  exact (unparseable_error_body_shows_exception_message
           "ens.eth" 500 "" (mount rootRoute NoItem) eq_refl).
Defined.

(** C3 as stated fails: HTTP 500 with a body on which [response.json()]
    throws V8's SyntaxError ends in the error state with that exception's
    message, not with the default one. *)
Lemma unparseable_error_body_counterexample :
  let thrown := "Unexpected token < in JSON at position 0" in
  let w := searchThenRespond "ens" (FetchResponse 500 (Throw thrown))
             (mount rootRoute NoItem) in
  view w = Error (JStr thrown)
  /\ view w <> Error (JStr failedMessage).
Proof. split; [reflexivity | discriminate]. Qed.

(** ** Mounting *)

Lemma routeEffect_frame r w :
  searchHistory (routeEffect r w) = searchHistory w
  /\ localStorage (routeEffect r w) = localStorage w
  /\ crashed (routeEffect r w) = crashed w
  /\ (error w = JNull -> error (routeEffect r w) = JNull).
Proof.
  unfold routeEffect.
  destruct (initialDomain r) as [d|]; [destruct (nonEmpty d)|];
    try destruct (nonEmpty (pathname r) && negb (String.eqb (pathname r) "/"));
    try destruct (nonEmpty (slice1 (pathname r)));
    match goal with
    | |- context [performSearch ?n ?v] =>
        destruct (performSearch_frame n v) as (H & S & C & _);
        destruct (performSearch_cells n v) as (_ & E & _);
        rewrite H, S, C, E; repeat split
    | _ => repeat split; auto
    end.
Qed.

(** C9. When the stored history does not parse as JSON, the component
    mounts with the empty history, nothing is thrown into the render, no
    error is set, and the stored string is left as it was. *)
Theorem corrupt_storage_restores_empty_history
  (r : Route) (raw message : string) :
  let w := mount r (Item raw (Throw message)) in
  searchHistory w = JArr []
  /\ crashed w = false
  /\ error w = JNull
  /\ localStorage w = Some raw.
Proof.
  intros w. unfold w, mount.
  destruct (routeEffect_frame r
              (restoreHistory (Item raw (Throw message))
                 (initial r (Item raw (Throw message)))))
    as (H & S & C & E).
  rewrite H, S, C, E; unfold restoreHistory;
    destruct (nonEmpty raw); repeat split.
Qed.

(** C10. A stored string that is not empty and that [JSON.parse] accepts
    becomes the history as parsed, whatever value it is. *)
Theorem parsed_storage_installed_verbatim (r : Route) (raw : string) (v : JsVal) :
  nonEmpty raw = true ->
  searchHistory (mount r (Item raw (Normal v))) = v.
Proof.
  intros N. unfold mount.
  destruct (routeEffect_frame r
              (restoreHistory (Item raw (Normal v)) (initial r (Item raw (Normal v)))))
    as (H & _).
  rewrite H. unfold restoreHistory. now rewrite N.
Qed.

Lemma parsed_storage_installed_verbatim_witness :
  let eleven := map (fun n => JNum n 0) [1; 2; 3; 4; 5; 6; 7; 8; 9; 10; 11]%Z in
  let twice := ["ENS.eth"; "ens.eth"] in
  searchHistory (mount rootRoute (Item "[1,2,3,4,5,6,7,8,9,10,11]" (Normal (JArr eleven))))
    = JArr eleven
  /\ searchHistory (mount rootRoute (Item (JSON_stringify twice) (Normal (ofStrings twice))))
    = ofStrings twice
  /\ searchHistory (mount rootRoute (Item "{}" (Normal (JObj [])))) = JObj [].
Proof.
  split; [|split]; apply parsed_storage_installed_verbatim; reflexivity.
Defined.

(** A history that is not an array of strings takes the component down at
    the next successful search. *)
Example malformed_history_crashes :
  crashed (searchThenRespond "ens" (FetchResponse 200 (Normal (JObj [])))
             (mount rootRoute (Item "{}" (Normal (JObj []))))) = true.
Proof. reflexivity. Qed.

(** ** Overlapping searches *)

Lemma resume_healthy searchName r w : healthy w -> healthy (resume searchName r w).
Proof.
  intros [C [h H]]. destruct (resume_history searchName w r) as (H' & _ & C').
  destruct (saveToHistory_strings searchName w h H) as [Hs Hc].
  unfold healthy. rewrite H', C'.
  destruct (outcome r); [now eauto|]. rewrite Hs, Hc. eauto.
Qed.

Lemma resume_applyOutcome searchName r w :
  cells (resume searchName r w) = applyOutcome (outcome r) (cells w)
  /\ isSearching (resume searchName r w) = false.
Proof.
  destruct (resume_cells searchName w r) as (I & E & R & _).
  unfold cells. rewrite I, E, R. now destruct (outcome r).
Qed.

Lemma step_click w name :
  crashed w = false ->
  step w (LeaderboardClick name) = performSearch name (setEnsName name w).
Proof. intros C. unfold step. now rewrite C. Qed.

Lemma step_respond w id r searchName :
  crashed w = false -> findPending id (pending w) = Some searchName ->
  step w (Respond id r) =
  resume searchName r (setPending (dropPending id (pending w)) (issued w) w).
Proof. intros C F. unfold step. now rewrite C, F. Qed.

Lemma Nat_eqb_succ i : Nat.eqb i (S i) = false.
Proof. apply Nat.eqb_neq. lia. Qed.

Lemma Nat_eqb_succ' i : Nat.eqb (S i) i = false.
Proof. apply Nat.eqb_neq. lia. Qed.

(** Two clicks in a row leave two requests in flight. *)
Lemma two_clicks a b w0 :
  healthy w0 -> pending w0 = [] ->
  let w2 := run [LeaderboardClick a; LeaderboardClick b] w0 in
  healthy w2
  /\ pending w2 = [(issued w0, searchNameOf a); (S (issued w0), searchNameOf b)]
  /\ cells w2 = (JNull, JNull).
Proof.
  intros [C [h H]] P w2. unfold w2, run. cbn [fold_left].
  rewrite (step_click w0 a C).
  destruct (performSearch_frame a (setEnsName a w0)) as (H1 & _ & C1 & _).
  destruct (performSearch_pending a (setEnsName a w0)) as (P1 & I1).
  cbn [searchHistory crashed pending issued setEnsName] in H1, C1, P1, I1.
  rewrite step_click by now rewrite C1.
  set (w1 := performSearch a (setEnsName a w0)) in *.
  destruct (performSearch_frame b (setEnsName b w1)) as (H2 & _ & C2 & _).
  destruct (performSearch_pending b (setEnsName b w1)) as (P2 & I2).
  destruct (performSearch_cells b (setEnsName b w1)) as (_ & E2 & R2 & _).
  cbn [searchHistory crashed pending issued setEnsName] in H2, C2, P2, I2.
  unfold healthy, cells. rewrite H2, C2, P2, E2, R2, H1, C1, P1, I1, P.
  repeat split; eauto.
Qed.

(** C1 as amended. Two searches overlap: [a] is clicked, then [b], and both
    responses come later.  Each response is applied when it arrives,
    whichever search is the latest: a failure writes its message to the
    error cell, a success writes its data to the result cell, and neither
    touches the other cell.  So when the response for [a] arrives last the
    final state carries what [a]'s response wrote, over what [b]'s left. *)
Theorem overlapping_responses_applied_in_arrival_order
  (a b : string) (ra rb : FetchResult) (w0 : World) :
  crashed w0 = false ->
  pending w0 = [] ->
  (exists h, searchHistory w0 = ofStrings h) ->
  let i := issued w0 in
  let aLast :=
    run [LeaderboardClick a; LeaderboardClick b; Respond (S i) rb; Respond i ra] w0 in
  let bLast :=
    run [LeaderboardClick a; LeaderboardClick b; Respond i ra; Respond (S i) rb] w0 in
  (cells aLast = applyOutcome (outcome ra) (applyOutcome (outcome rb) (JNull, JNull))
   /\ isSearching aLast = false /\ crashed aLast = false)
  /\ (cells bLast = applyOutcome (outcome rb) (applyOutcome (outcome ra) (JNull, JNull))
      /\ isSearching bLast = false /\ crashed bLast = false).
Proof.
  intros C P H i aLast bLast.
  destruct (two_clicks a b w0 (conj C H) P) as ([C2 H2] & P2 & E2).
  set (w2 := run [LeaderboardClick a; LeaderboardClick b] w0) in *.
  assert (Ea : aLast = run [Respond (S i) rb; Respond i ra] w2) by reflexivity.
  assert (Eb : bLast = run [Respond i ra; Respond (S i) rb] w2) by reflexivity.
  rewrite Ea, Eb. unfold run. cbn [fold_left]. fold i in P2. split.
  - rewrite (step_respond w2 (S i) rb (searchNameOf b) C2)
      by (rewrite P2; cbn; now rewrite Nat_eqb_succ, Nat.eqb_refl).
    rewrite P2. cbn [dropPending filter fst]. rewrite Nat_eqb_succ, Nat.eqb_refl.
    cbn [negb].
    set (w2' := setPending [(i, searchNameOf a)] (issued w2) w2).
    assert (Hh : healthy (resume (searchNameOf b) rb w2'))
      by (apply resume_healthy; split; assumption).
    destruct (resume_applyOutcome (searchNameOf b) rb w2') as [Cb _].
    destruct (resume_cells (searchNameOf b) w2' rb) as (_ & _ & _ & Pb & _).
    set (w3 := resume (searchNameOf b) rb w2') in *.
    rewrite (step_respond w3 i ra (searchNameOf a) (proj1 Hh))
      by (rewrite Pb; cbn; now rewrite Nat.eqb_refl).
    set (w3' := setPending _ _ w3).
    destruct (resume_applyOutcome (searchNameOf a) ra w3') as [Ca Ia].
    rewrite Ca, Ia. change (cells w3') with (cells w3). rewrite Cb.
    change (cells w2') with (cells w2). rewrite E2.
    repeat split. apply resume_healthy, Hh.
  - rewrite (step_respond w2 i ra (searchNameOf a) C2)
      by (rewrite P2; cbn; now rewrite Nat.eqb_refl).
    rewrite P2. cbn [dropPending filter fst]. rewrite Nat_eqb_succ', Nat.eqb_refl.
    cbn [negb].
    set (w2' := setPending [(S i, searchNameOf b)] (issued w2) w2).
    assert (Hh : healthy (resume (searchNameOf a) ra w2'))
      by (apply resume_healthy; split; assumption).
    destruct (resume_applyOutcome (searchNameOf a) ra w2') as [Ca _].
    destruct (resume_cells (searchNameOf a) w2' ra) as (_ & _ & _ & Pa & _).
    set (w3 := resume (searchNameOf a) ra w2') in *.
    rewrite (step_respond w3 (S i) rb (searchNameOf b) (proj1 Hh))
      by (rewrite Pa; cbn; now rewrite Nat.eqb_refl).
    set (w3' := setPending _ _ w3).
    destruct (resume_applyOutcome (searchNameOf b) rb w3') as [Cb Ib].
    rewrite Cb, Ib. change (cells w3') with (cells w3). rewrite Ca.
    change (cells w2') with (cells w2). rewrite E2.
    repeat split. apply resume_healthy, Hh.
Qed.

Lemma overlapping_responses_witness :
  let a := FetchResponse 200 (Normal (JObj [("name", JStr "a.eth")])) in
  let b := FetchResponse 200 (Normal (JObj [("name", JStr "b.eth")])) in
  cells (run [LeaderboardClick "a"; LeaderboardClick "b"; Respond 1 b; Respond 0 a]
           (mount rootRoute NoItem))
  = (JNull, JObj [("name", JStr "a.eth")]).
Proof.
  intros a b.
  destruct (overlapping_responses_applied_in_arrival_order
              "a" "b" a b (mount rootRoute NoItem) eq_refl eq_refl
              (ex_intro _ [] eq_refl)) as [[E _] _].
  exact E.
Defined.

(** C1 as stated fails: [a] is clicked, then [b]; [b]'s response arrives,
    then [a]'s.  The result shown at the end is [a]'s, not [b]'s. *)
Lemma stale_response_counterexample :
  let dataA := JObj [("name", JStr "a.eth")] in
  let dataB := JObj [("name", JStr "b.eth")] in
  let w0 := mount rootRoute NoItem in
  let final :=
    run [LeaderboardClick "a"; LeaderboardClick "b";
         Respond 1 (FetchResponse 200 (Normal dataB));
         Respond 0 (FetchResponse 200 (Normal dataA))] w0 in
  view (searchThenRespond "b" (FetchResponse 200 (Normal dataB)) w0) = Success dataB
  /\ view final = Success dataA
  /\ view final <> Success dataB.
Proof. repeat split; discriminate. Qed.

(** ** One variant at a time *)

Lemma activeCells_resume searchName r w :
  error w = JNull -> searchResults w = JNull ->
  activeCells (resume searchName r w) <= 1.
Proof.
  intros E R. destruct (resume_cells searchName w r) as (I & E' & R' & _).
  unfold activeCells. rewrite I, E', R', E, R.
  destruct (outcome r) as [m | d]; cbn;
    [destruct (present m) | destruct (present d)]; cbn; lia.
Qed.

(** C8 as stated fails: [a] is clicked, then [b]; [b]'s response is a
    success, [a]'s request then fails.  An error and a result are both set. *)
Lemma error_with_result_counterexample :
  let w :=
    run [LeaderboardClick "a"; LeaderboardClick "b";
         Respond 1 (FetchResponse 200 (Normal (JObj [("name", JStr "b.eth")])));
         Respond 0 (FetchRejects "Failed to fetch")]
        (mount rootRoute NoItem) in
  error w = JStr "Failed to fetch"
  /\ searchResults w = JObj [("name", JStr "b.eth")]
  /\ activeCells w = 2.
Proof. repeat split. Qed.

(** ** Route initialisation *)

Lemma requests_app l l' : requests (l ++ l') = (requests l ++ requests l')%list.
Proof.
  induction l as [|e l IH]; [reflexivity|].
  destruct e; cbn; now rewrite IH.
Qed.

Lemma pushes_app l l' : pushes (l ++ l') = (pushes l ++ pushes l')%list.
Proof.
  induction l as [|e l IH]; [reflexivity|].
  destruct e; cbn; now rewrite IH.
Qed.

Lemma restoreHistory_quiet r stored :
  let w := restoreHistory stored (initial r stored) in
  requests (log w) = [] /\ pushes (log w) = [] /\ crashed w = false
  /\ deps w = r /\ pending w = [].
Proof.
  destruct stored as [|raw [v | m]]; cbn; [repeat split | |];
    destruct (nonEmpty raw); repeat split.
Qed.

Lemma sameDeps_refl r : sameDeps r r = true.
Proof.
  unfold sameDeps. rewrite String.eqb_refl.
  destruct (initialDomain r); cbn; [apply String.eqb_refl | reflexivity].
Qed.

(** The route effect on a route with a supplied term is one [performSearch]. *)
Lemma routeEffect_initialDomain d path w :
  nonEmpty d = true ->
  routeEffect {| initialDomain := Some d; pathname := path |} w
  = performSearch d (setEnsName d w).
Proof. intros N. unfold routeEffect. cbn [initialDomain]. now rewrite N. Qed.

(** C4 as stated fails: the page is loaded at [/ens], so [DomainPage] mounts
    [Home] with the term [ens]; the search pushes [/ens.eth]; the render at
    that path runs the initialisation again and a second request for the
    same name leaves. *)
Lemma route_initialization_counterexample :
  let p0 := {| initialDomain := Some "ens"; pathname := "/ens" |} in
  let w1 := mount p0 NoItem in
  let p1 := {| initialDomain := Some "ens.eth"; pathname := "/ens.eth" |} in
  let w2 := step w1 (Render p1) in
  DomainPage (Normal "ens") = Normal (initialDomain p0)
  /\ log w1 = [RouterPush (pathname p1); FetchGet 0 "/api/ens?name=ens.eth"]
  /\ DomainPage (Normal "ens.eth") = Normal (initialDomain p1)
  /\ requests (log w2) = ["/api/ens?name=ens.eth"; "/api/ens?name=ens.eth"]
  /\ List.length (requests (log w2)) <> 1.
Proof. repeat split. discriminate. Qed.

(** * Further properties of the component *)

(** ** The history list under [saveToHistory] and [removeFromHistory] *)

Section HistoryLists.

Variable n : string.

Let keeps (item : string) : bool := negb (String.eqb (toLowerCase item) n).

Lemma filter_all {A} (p : A -> bool) l :
  (forall x, In x l -> p x = true) -> filter p l = l.
Proof.
  induction l as [|a l IH]; intros H; cbn; [reflexivity|].
  rewrite (H a (or_introl eq_refl)), IH; [reflexivity|].
  intros x Hx. apply H. now right.
Qed.

Lemma filter_firstn_filter {A} (p : A -> bool) k l :
  filter p (firstn k (filter p l)) = firstn k (filter p l).
Proof.
  apply filter_all. intros x Hx. apply In_firstn in Hx.
  now apply filter_In in Hx.
Qed.

Lemma keeps_absent h : ~ In n (map toLowerCase h) -> filter keeps h = h.
Proof.
  intros H. apply filter_all. intros x Hx. unfold keeps.
  destruct (String.eqb_spec (toLowerCase x) n) as [E|]; [|reflexivity].
  exfalso. apply H. rewrite <- E. now apply in_map.
Qed.

(** Under the invariant, exactly one entry equals a name that is listed. *)
Lemma keeps_present_length h :
  NoDup (map toLowerCase h) -> In n (map toLowerCase h) ->
  S (List.length (filter keeps h)) = List.length h.
Proof.
  induction h as [|a h IH]; cbn [map filter List.length]; intros D I; [destruct I|].
  inversion D as [|? ? Hn Hd]; subst. unfold keeps at 1.
  destruct (String.eqb_spec (toLowerCase a) n) as [E | N]; cbn [negb].
  - rewrite keeps_absent; [reflexivity | now rewrite <- E].
  - cbn [List.length]. f_equal. apply IH; [exact Hd|].
    destruct I as [I | I]; [contradiction | exact I].
Qed.

End HistoryLists.

Lemma normalizedName_lower name : toLowerCase (normalizedName name) = normalizedName name.
Proof. apply toLowerCase_idem. Qed.

Lemma historyUpdater_twice n h :
  toLowerCase n = n -> historyUpdater n (historyUpdater n h) = historyUpdater n h.
Proof.
  intros L. rewrite !historyUpdater_cons. cbn [filter].
  rewrite L, String.eqb_refl. cbn [negb].
  rewrite filter_firstn_filter, firstn_firstn. reflexivity.
Qed.

Lemma removeUpdater_after_record n h :
  toLowerCase n = n ->
  removeUpdater n (historyUpdater n h) = firstn 9 (removeUpdater n h).
Proof.
  intros L. rewrite historyUpdater_cons. unfold removeUpdater. cbn [filter].
  rewrite !L, String.eqb_refl. cbn [negb]. apply filter_firstn_filter.
Qed.

(** On an array of strings [removeFromHistory] filters it, stores the
    result, and closes the dropdown when nothing is left. *)
Lemma removeFromHistory_strings name w prev :
  searchHistory w = ofStrings prev ->
  let w' := removeFromHistory name w in
  let updated := removeUpdater name prev in
  searchHistory w' = ofStrings updated
  /\ crashed w' = crashed w
  /\ localStorage w' = Some (JSON_stringify updated)
  /\ log w' = (log w ++ [StorageSetItem SEARCH_HISTORY_KEY (JSON_stringify updated)])%list
  /\ showHistory w' = (if Nat.eqb (List.length updated) 0 then false else showHistory w)
  /\ (isSearching w' = isSearching w /\ error w' = error w
      /\ searchResults w' = searchResults w /\ ensName w' = ensName w)
  /\ (pending w' = pending w /\ issued w' = issued w /\ deps w' = deps w).
Proof.
  intros H. cbn zeta. unfold removeFromHistory.
  rewrite H, stringArray_ofStrings.
  destruct (Nat.eqb (List.length (removeUpdater name prev)) 0); repeat split.
Qed.

(** What [saveToHistory] does besides the history cell, on an array of strings. *)
Lemma saveToHistory_effects name w prev :
  searchHistory w = ofStrings prev ->
  nonEmpty (normalizedName name) = true ->
  let w' := saveToHistory name w in
  let updated := historyUpdater (normalizedName name) prev in
  searchHistory w' = ofStrings updated
  /\ localStorage w' = Some (JSON_stringify updated)
  /\ log w' = (log w ++ [StorageSetItem SEARCH_HISTORY_KEY (JSON_stringify updated)])%list
  /\ crashed w' = crashed w
  /\ showHistory w' = showHistory w /\ ensName w' = ensName w /\ deps w' = deps w.
Proof.
  intros H N. cbn zeta. unfold saveToHistory. fold (normalizedName name).
  rewrite N, H, stringArray_ofStrings. repeat split.
Qed.

(** X1. [removeFromHistory] on an array of strings throws nothing and
    leaves exactly the entries that differ from the name ignoring case; it
    adds none, and touches neither the search cells nor the requests in
    flight. *)
Theorem remove_keeps_exactly_the_others (name : string) (w : World) (h : list string) :
  searchHistory w = ofStrings h ->
  exists h',
    searchHistory (removeFromHistory name w) = ofStrings h'
    /\ (forall x, In x h' <-> In x h /\ toLowerCase x <> toLowerCase name)
    /\ List.length h' <= List.length h
    /\ crashed (removeFromHistory name w) = crashed w
    /\ cells (removeFromHistory name w) = cells w
    /\ isSearching (removeFromHistory name w) = isSearching w
    /\ pending (removeFromHistory name w) = pending w.
Proof.
  intros H.
  destruct (removeFromHistory_strings name w h H)
    as (Hh & Hc & _ & _ & _ & (Hi & He & Hr & _) & (Hp & _)).
  exists (removeUpdater name h). unfold cells. rewrite He, Hr.
  repeat split; try assumption.
  - now apply filter_In in H0.
  - apply filter_In in H0 as [_ K]. intros E. rewrite E, String.eqb_refl in K.
    discriminate.
  - intros [I K]. apply filter_In. split; [exact I|].
    now destruct (String.eqb_spec (toLowerCase x) (toLowerCase name)).
  - unfold removeUpdater. apply filter_length_le.
Qed.

Lemma remove_keeps_exactly_the_others_witness :
  searchHistory (removeFromHistory "B.ETH"
                   (setSearchHistory (ofStrings ["a.eth"; "b.eth"; "c.eth"])
                      (mount rootRoute NoItem)))
  = ofStrings ["a.eth"; "c.eth"].
Proof.
  destruct (remove_keeps_exactly_the_others "B.ETH"
              (setSearchHistory (ofStrings ["a.eth"; "b.eth"; "c.eth"])
                 (mount rootRoute NoItem))
              ["a.eth"; "b.eth"; "c.eth"] eq_refl) as (h' & E & _).
  rewrite E. f_equal. apply ofStrings_inj. rewrite <- E. reflexivity.
Defined.

Lemma removeUpdater_all_match name h :
  (forall x, In x h -> toLowerCase x = toLowerCase name) -> removeUpdater name h = [].
Proof.
  unfold removeUpdater. induction h as [|a h IH]; intros All; cbn; [reflexivity|].
  rewrite (All a (or_introl eq_refl)), String.eqb_refl. cbn.
  apply IH. intros x Hx. apply All. now right.
Qed.

(** X2. When every listed entry equals the removed name ignoring case (in
    particular when it is the only entry), [removeFromHistory] leaves the
    empty history, stores the empty array and closes the dropdown; when
    some entry differs, the dropdown stays as it was. *)
Theorem remove_last_entry_closes_dropdown (name : string) (w : World) (h : list string) :
  searchHistory w = ofStrings h ->
  let w' := removeFromHistory name w in
  ((forall x, In x h -> toLowerCase x = toLowerCase name) ->
     searchHistory w' = JArr [] /\ showHistory w' = false
     /\ localStorage w' = Some "[]")
  /\ ((exists x, In x h /\ toLowerCase x <> toLowerCase name) ->
     showHistory w' = showHistory w).
Proof.
  intros H w'.
  destruct (removeFromHistory_strings name w h H) as (Hh & _ & Hs & _ & Hd & _).
  fold w' in Hh, Hs, Hd. split.
  - intros All.
    rewrite Hh, Hs, Hd, (removeUpdater_all_match name h All). repeat split.
  - intros (x & I & N). rewrite Hd.
    assert (K : In x (removeUpdater name h)).
    { apply filter_In. split; [exact I|].
      now destruct (String.eqb_spec (toLowerCase x) (toLowerCase name)). }
    destruct (removeUpdater name h); [destruct K | reflexivity].
Qed.

Lemma remove_last_entry_witness :
  let w := setShowHistory true
             (setSearchHistory (ofStrings ["ens.eth"]) (mount rootRoute NoItem)) in
  showHistory w = true
  /\ searchHistory (removeFromHistory "ens.eth" w) = JArr []
  /\ showHistory (removeFromHistory "ens.eth" w) = false.
Proof.
  intros w. split; [reflexivity|].
  destruct (remove_last_entry_closes_dropdown "ens.eth" w ["ens.eth"] eq_refl)
    as [E _].
  destruct E as (A & B & _).
  - intros x [<- | []]. reflexivity.
  - split; [exact A | exact B].
Defined.

(** X3. Saving a name a second time, in any letter case and with any
    surrounding blanks, changes nothing: the history after both calls is
    the history after the first. *)
Theorem save_again_changes_nothing (a b : string) (w : World) (h : list string) :
  searchHistory w = ofStrings h ->
  normalizedName a = normalizedName b ->
  searchHistory (saveToHistory b (saveToHistory a w)) = searchHistory (saveToHistory a w)
  /\ localStorage (saveToHistory b (saveToHistory a w)) = localStorage (saveToHistory a w).
Proof.
  intros H E.
  destruct (nonEmpty (normalizedName a)) eqn:N.
  - destruct (saveToHistory_effects a w h H N) as (H1 & S1 & _).
    rewrite E in N.
    destruct (saveToHistory_effects b (saveToHistory a w) _ H1 N) as (H2 & S2 & _).
    rewrite H2, S2, H1, S1, <- E, historyUpdater_twice
      by apply normalizedName_lower.
    split; reflexivity.
  - assert (Ea : saveToHistory a w = w)
      by (unfold saveToHistory; fold (normalizedName a); now rewrite N).
    rewrite Ea. unfold saveToHistory. fold (normalizedName b).
    rewrite <- E, N. split; reflexivity.
Qed.

Lemma save_again_witness :
  searchHistory (saveToHistory " ENS.eth " (saveToHistory "ens.eth" (mount rootRoute NoItem)))
  = ofStrings ["ens.eth"].
Proof.
  destruct (save_again_changes_nothing "ens.eth" " ENS.eth " (mount rootRoute NoItem) []
              eq_refl eq_refl) as [E _].
  rewrite E. reflexivity.
Defined.

(** X4. Saving a name that is not listed (ignoring case) puts it in front
    of the previous entries, all kept in order while there is room; on a
    full list of 10 the last, oldest entry is the one dropped. *)
Theorem save_new_name_evicts_oldest (name : string) (w : World) (h : list string) :
  searchHistory w = ofStrings h ->
  nonEmpty (normalizedName name) = true ->
  ~ In (normalizedName name) (map toLowerCase h) ->
  (List.length h < 10 ->
     searchHistory (saveToHistory name w) = ofStrings (normalizedName name :: h))
  /\ (List.length h = 10 ->
     searchHistory (saveToHistory name w)
     = ofStrings (normalizedName name :: removelast h)).
Proof.
  intros H N A.
  destruct (saveToHistory_effects name w h H N) as (E & _).
  rewrite E, historyUpdater_cons, keeps_absent by exact A. split; intros L.
  - rewrite firstn_all2 by lia. reflexivity.
  - rewrite removelast_firstn_len, L. reflexivity.
Qed.

Lemma save_new_name_witness :
  let ten := ["j"; "i"; "h"; "g"; "f"; "e"; "d"; "c"; "b"; "a"] in
  searchHistory (saveToHistory "K" (setSearchHistory (ofStrings ten) (mount rootRoute NoItem)))
  = ofStrings ["k"; "j"; "i"; "h"; "g"; "f"; "e"; "d"; "c"; "b"].
Proof.
  intros ten.
  refine (proj2 (save_new_name_evicts_oldest "K"
                   (setSearchHistory (ofStrings ten) (mount rootRoute NoItem))
                   ten eq_refl eq_refl _) eq_refl).
  cbn. intros K. repeat (destruct K as [K | K]; [discriminate K|]). exact K.
Defined.

(** X5. Saving a name that is already listed, in a history of at most 10
    entries without duplicates ignoring case, moves it to the front and
    loses nothing: the length is unchanged and every other entry is still
    listed. *)
Theorem save_listed_name_loses_nothing (name : string) (w : World) (h : list string) :
  searchHistory w = ofStrings h ->
  List.length h <= 10 ->
  NoDup (map toLowerCase h) ->
  nonEmpty (normalizedName name) = true ->
  In (normalizedName name) (map toLowerCase h) ->
  exists rest,
    searchHistory (saveToHistory name w) = ofStrings (normalizedName name :: rest)
    /\ S (List.length rest) = List.length h
    /\ forall x, In x h -> toLowerCase x <> normalizedName name -> In x rest.
Proof.
  intros H L D N I.
  destruct (saveToHistory_effects name w h H N) as (E & _).
  pose proof (keeps_present_length (normalizedName name) h D I) as K.
  exists (filter (fun item => negb (String.eqb (toLowerCase item) (normalizedName name))) h).
  rewrite E, historyUpdater_cons, firstn_all2 by lia.
  repeat split; [exact K|].
  intros x Hx Nx. apply filter_In. split; [exact Hx|].
  now destruct (String.eqb_spec (toLowerCase x) (normalizedName name)).
Qed.

Lemma save_listed_name_witness :
  searchHistory (saveToHistory "C.eth"
                   (setSearchHistory (ofStrings ["a.eth"; "b.eth"; "c.eth"])
                      (mount rootRoute NoItem)))
  = ofStrings ["c.eth"; "a.eth"; "b.eth"].
Proof.
  destruct (save_listed_name_loses_nothing "C.eth"
              (setSearchHistory (ofStrings ["a.eth"; "b.eth"; "c.eth"])
                 (mount rootRoute NoItem))
              ["a.eth"; "b.eth"; "c.eth"] eq_refl) as (rest & E & _).
  - cbn. lia.
  - cbn. repeat constructor; cbn; intuition discriminate.
  - reflexivity.
  - cbn. auto.
  - rewrite E. apply f_equal, ofStrings_inj. rewrite <- E. reflexivity.
Defined.

(** X6. Removing an entry right after it was saved leaves the previous
    history without that name, cut to 9; when the name was not listed and
    there were fewer than 10 entries, this is the previous history itself.
    The entry is the saved, trimmed name: [removeFromHistory] does not trim. *)
Theorem remove_undoes_save (name : string) (w : World) (h : list string) :
  searchHistory w = ofStrings h ->
  nonEmpty (normalizedName name) = true ->
  let w' := removeFromHistory (normalizedName name) (saveToHistory name w) in
  searchHistory w' = ofStrings (firstn 9 (removeUpdater (normalizedName name) h))
  /\ (~ In (normalizedName name) (map toLowerCase h) -> List.length h < 10 ->
      searchHistory w' = searchHistory w /\ localStorage w' = Some (JSON_stringify h)).
Proof.
  intros H N w'.
  destruct (saveToHistory_effects name w h H N) as (E & _).
  destruct (removeFromHistory_strings (normalizedName name) _ _ E) as (E' & _ & S' & _).
  fold w' in E', S'.
  rewrite removeUpdater_after_record in E', S' by apply normalizedName_lower.
  split; [exact E'|]. intros A L.
  assert (K : firstn 9 (removeUpdater (normalizedName name) h) = h).
  { unfold removeUpdater. rewrite normalizedName_lower, keeps_absent by exact A.
    apply firstn_all2. lia. }
  rewrite E', S', K, H. split; reflexivity.
Qed.

Lemma remove_undoes_save_witness :
  let w := setSearchHistory (ofStrings ["a.eth"]) (mount rootRoute NoItem) in
  searchHistory (removeFromHistory "ens.eth" (saveToHistory " ENS.eth" w))
  = ofStrings ["a.eth"]
  /\ searchHistory (removeFromHistory " ENS.eth" (saveToHistory " ENS.eth" w))
     = ofStrings ["ens.eth"; "a.eth"].
Proof.
  intros w. split; [|reflexivity].
  exact (proj1 (remove_undoes_save " ENS.eth" w ["a.eth"] eq_refl eq_refl)).
Defined.

(** ** What every reachable state satisfies *)

Section Reachable.

Variable s0 : option string.

Lemma storageWrites_app l l' :
  storageWrites (l ++ l') = (storageWrites l ++ storageWrites l')%list.
Proof.
  induction l as [|e l IH]; [reflexivity|].
  destruct e; cbn; now rewrite IH.
Qed.

Lemma canonical_facts n :
  canonical n -> nonEmpty (normalizedName n) = true /\ normalizedName n = n.
Proof.
  intros C. rewrite <- C, normalizedName_searchNameOf. split; [|reflexivity].
  apply searchNameOf_nonEmpty.
Qed.

Lemma canonical_searchNameOf x : canonical (searchNameOf x).
Proof.
  unfold canonical, searchNameOf at 1.
  rewrite searchNameOf_trim, searchNameOf_lower, searchNameOf_suffix.
  reflexivity.
Qed.

Lemma Sound_ext w w' : core w' = core w -> Sound s0 w -> Sound s0 w'.
Proof.
  unfold core. intros E [A H P U R K].
  injection E as Ec Eh Es Ep El.
  constructor; rewrite ?Ec, ?Eh, ?Es, ?Ep, ?El; assumption.
Qed.

Lemma Sound_console w label message :
  Sound s0 w -> Sound s0 (emit (ConsoleError label message) w).
Proof.
  intros [A H P U R K].
  constructor; cbn [crashed searchHistory localStorage pending log emit];
    rewrite ?storageWrites_app, ?pushes_app, ?requests_app; cbn;
    rewrite ?app_nil_r; assumption.
Qed.

Lemma Sound_performSearch name w : Sound s0 w -> Sound s0 (performSearch name w).
Proof.
  intros [A H P U R K].
  destruct (performSearch_frame name w) as (Eh & Es & Ec & _).
  destruct (performSearch_pending name w) as (Ep & _).
  pose proof (performSearch_log name w) as El.
  constructor; rewrite ?Ec, ?Eh, ?Es, ?Ep, ?El,
    ?storageWrites_app, ?pushes_app, ?requests_app; cbn;
    rewrite ?app_nil_r; try assumption.
  - apply Forall_app. split; [exact P|].
    repeat constructor. apply canonical_searchNameOf.
  - apply Forall_app. split; [exact U|].
    repeat constructor. exists (searchNameOf name).
    split; [reflexivity | apply canonical_searchNameOf].
  - rewrite map_app, R. reflexivity.
Qed.

Lemma Sound_dropPending id w :
  Sound s0 w -> Sound s0 (setPending (dropPending id (pending w)) (issued w) w).
Proof.
  intros [A H P U R K]. constructor; try assumption.
  cbn [pending setPending]. unfold dropPending.
  apply Forall_forall. intros x Hx. apply filter_In in Hx as [Hx _].
  revert x Hx. now apply Forall_forall.
Qed.

Lemma last_snoc {A} (l : list A) x d : last (l ++ [x]) d = x.
Proof. apply last_last. Qed.

(** A history update: the list changes to [h'] and is written to storage. *)
Lemma Sound_written w w' h' :
  Sound s0 w ->
  crashed w' = crashed w -> pending w' = pending w ->
  searchHistory w' = ofStrings h' ->
  localStorage w' = Some (JSON_stringify h') ->
  log w' = (log w ++ [StorageSetItem SEARCH_HISTORY_KEY (JSON_stringify h')])%list ->
  wellKept h' -> Forall canonical h' ->
  Sound s0 w'.
Proof.
  intros [A H P U R K] Ec Ep Eh Es El Wk Ca.
  constructor; rewrite ?Ec, ?Ep, ?El,
    ?storageWrites_app, ?pushes_app, ?requests_app; cbn;
    rewrite ?app_nil_r; try assumption.
  - exists h'. repeat split; try assumption; try apply Wk.
    left. split; [exact Es | apply last_snoc].
  - apply Forall_app. split; [exact K | repeat constructor].
Qed.

Lemma Forall_firstn_filter {A} (P : A -> Prop) (p : A -> bool) k l :
  Forall P l -> Forall P (firstn k (filter p l)).
Proof.
  intros F. apply Forall_forall. intros x Hx.
  apply In_firstn, filter_In in Hx as [Hx _]. revert x Hx. now apply Forall_forall.
Qed.

Lemma Sound_saveToHistory n w :
  canonical n -> Sound s0 w -> Sound s0 (saveToHistory n w).
Proof.
  intros C S. destruct (canonical_facts n C) as [N E].
  destruct (sound_history s0 w S) as (h & Hh & Wk & Ca & _).
  destruct (saveToHistory_effects n w h Hh N) as (Eh & Es & El & Ec & _).
  destruct (saveToHistory_frame n w) as (_ & _ & _ & Ep & _).
  rewrite E in Eh, Es, El.
  apply (Sound_written w _ (historyUpdater n h) S Ec Ep Eh Es El).
  - pose proof (recordTerm_wellKept n h Wk) as W.
    unfold recordTerm in W. now rewrite N, E in W.
  - rewrite historyUpdater_cons. constructor; [exact C|].
    now apply Forall_firstn_filter.
Qed.

Lemma Sound_removeFromHistory name w :
  Sound s0 w -> Sound s0 (removeFromHistory name w).
Proof.
  intros S.
  destruct (sound_history s0 w S) as (h & Hh & [Wl Wd] & Ca & _).
  destruct (removeFromHistory_strings name w h Hh)
    as (Eh & Ec & Es & El & _ & _ & (Ep & _)).
  apply (Sound_written w _ (removeUpdater name h) S Ec Ep Eh Es El).
  - split.
    + unfold removeUpdater. pose proof (filter_length_le
        (fun item => negb (String.eqb (toLowerCase item) (toLowerCase name))) h). lia.
    + now apply NoDup_map_filter.
  - rewrite <- (firstn_all (removeUpdater name h)).
    unfold removeUpdater. now apply Forall_firstn_filter.
Qed.

Lemma Sound_resume n r w : canonical n -> Sound s0 w -> Sound s0 (resume n r w).
Proof.
  intros C S. unfold resume, tryBlock, catchBlock.
  destruct r as [m | status [body | m]].
  - apply (Sound_ext (emit (ConsoleError "Error fetching ENS history:" m) w));
      [reflexivity | now apply Sound_console].
  - destruct (ok status); cbn [negb].
    + apply (Sound_ext (saveToHistory n (setSearchResults body w))); [reflexivity|].
      apply Sound_saveToHistory; [exact C|].
      now apply (Sound_ext w).
    + destruct (errorField body) as [e | m].
      * destruct (status =? 429)%Z; now apply (Sound_ext w).
      * apply (Sound_ext (emit (ConsoleError "Error fetching ENS history:" m) w));
          [reflexivity | now apply Sound_console].
  - destruct (ok status); cbn [negb];
      (apply (Sound_ext (emit (ConsoleError "Error fetching ENS history:" m) w));
       [reflexivity | now apply Sound_console]).
Qed.

Lemma Sound_routeEffect r w : Sound s0 w -> Sound s0 (routeEffect r w).
Proof.
  intros S. unfold routeEffect.
  destruct (initialDomain r) as [d|]; [destruct (nonEmpty d)|];
    try destruct (nonEmpty (pathname r) && negb (String.eqb (pathname r) "/"));
    try destruct (nonEmpty (slice1 (pathname r)));
    try exact S;
    apply Sound_performSearch; now apply (Sound_ext w).
Qed.

Lemma findPending_In id l n : findPending id l = Some n -> In (id, n) l.
Proof.
  induction l as [|[i t] l IH]; cbn; [discriminate|].
  destruct (Nat.eqb_spec i id) as [-> | _].
  - intros E. injection E as ->. now left.
  - intros E. right. now apply IH.
Qed.

Lemma Sound_step w e : Sound s0 w -> Sound s0 (step w e).
Proof.
  intros S. unfold step. rewrite (sound_alive s0 w S).
  destruct e as [r | name | id r].
  - unfold rerender. destruct (sameDeps (deps w) r); [exact S|].
    apply Sound_routeEffect. now apply (Sound_ext w).
  - apply Sound_performSearch. now apply (Sound_ext w).
  - destruct (findPending id (pending w)) as [n|] eqn:F; [|exact S].
    apply Sound_resume; [|now apply Sound_dropPending].
    apply findPending_In in F.
    pose proof (sound_pending s0 w S) as P.
    rewrite Forall_forall in P. exact (P _ F).
Qed.

Lemma Sound_uiStep w e : Sound s0 w -> Sound s0 (uiStep w e).
Proof.
  intros S. unfold uiStep. rewrite (sound_alive s0 w S).
  destruct e as [e | | value | name | name | | | inside].
  - now apply Sound_step.
  - unfold handleSearch. destruct (nonEmpty (trim (ensName w))); cbn [negb];
      [now apply Sound_performSearch | exact S].
  - now apply (Sound_ext w).
  - apply Sound_performSearch. now apply (Sound_ext w).
  - now apply Sound_removeFromHistory.
  - now apply (Sound_ext w).
  - now apply (Sound_ext w).
  - unfold handleClickOutside. destruct (showHistory w && negb inside);
      [now apply (Sound_ext w) | exact S].
Qed.

Lemma Sound_uiRun events : forall w, Sound s0 w -> Sound s0 (uiRun events w).
Proof.
  induction events as [|e events IH]; intros w S; [exact S|].
  apply IH. now apply Sound_uiStep.
Qed.

End Reachable.

Lemma Sound_mount r stored :
  restoresNothing stored = true -> Sound (rawOf stored) (mount r stored).
Proof.
  intros N. unfold mount. apply Sound_routeEffect.
  assert (S0 : Sound (rawOf stored) (initial r stored)).
  { constructor; cbn; try constructor.
    exists []. repeat split; [cbn; lia | constructor | constructor | now right]. }
  destruct stored as [|raw [v | m]]; cbn [restoreHistory]; [exact S0 | |].
  - cbn in N. destruct (nonEmpty raw); [discriminate | exact S0].
  - destruct (nonEmpty raw); [now apply Sound_console | exact S0].
Qed.

Lemma canonical_shape n :
  canonical n -> toLowerCase n = n /\ trim n = n /\ endsWith n ".eth" = true.
Proof.
  intros C. rewrite <- C.
  repeat split; [apply searchNameOf_lower | apply searchNameOf_trim | apply searchNameOf_suffix].
Qed.

(** X7. After a mount that restored nothing, whatever the user does and
    whatever the responses are (submits, typing, clicks on the leaderboard
    and on history entries, removals, renders, responses in any order), no
    updater throws and the history is an array of at most 10 strings, no
    two equal ignoring case, each of them trimmed, lower-cased and ending
    in [.eth]. *)
Theorem reachable_history_is_well_kept
  (r : Route) (stored : StoredItem) (events : list UiEvent) :
  restoresNothing stored = true ->
  let w := uiRun events (mount r stored) in
  crashed w = false
  /\ exists h,
       searchHistory w = ofStrings h
       /\ List.length h <= 10
       /\ NoDup (map toLowerCase h)
       /\ Forall (fun e => toLowerCase e = e /\ trim e = e /\ endsWith e ".eth" = true) h.
Proof.
  intros N w.
  pose proof (Sound_uiRun _ events _ (Sound_mount r stored N)) as S. fold w in S.
  split; [apply (sound_alive _ _ S)|].
  destruct (sound_history _ _ S) as (h & Hh & [Wl Wd] & Ca & _).
  exists h. repeat split; try assumption.
  eapply Forall_impl; [|exact Ca]. intros a. apply canonical_shape.
Qed.

Lemma reachable_history_witness :
  crashed (uiRun [Change "ENS"; Submit;
                  Core (Respond 0 (FetchResponse 200 (Normal (JObj []))));
                  ToggleHistory; Remove "ens.eth"]
             (mount rootRoute NoItem)) = false.
Proof.
  exact (proj1 (reachable_history_is_well_kept rootRoute NoItem
                  [Change "ENS"; Submit;
                   Core (Respond 0 (FetchResponse 200 (Normal (JObj []))));
                   ToggleHistory; Remove "ens.eth"] eq_refl)).
Defined.

(** X8. After a mount that restored nothing, whatever happens next: local
    storage is only ever written under the history key; until the first
    write it holds what was found at mount and the history is empty; from
    the first write on, the stored string and the last value written are
    [JSON.stringify] of the history in memory. *)
Theorem storage_follows_history
  (r : Route) (stored : StoredItem) (events : list UiEvent) :
  restoresNothing stored = true ->
  let w := uiRun events (mount r stored) in
  Forall (fun kv => fst kv = SEARCH_HISTORY_KEY) (storageWrites (log w))
  /\ exists h,
       searchHistory w = ofStrings h
       /\ (storageWrites (log w) = [] /\ localStorage w = rawOf stored /\ h = []
           \/ localStorage w = Some (JSON_stringify h)
              /\ last (storageWrites (log w)) (SEARCH_HISTORY_KEY, "")
                 = (SEARCH_HISTORY_KEY, JSON_stringify h)).
Proof.
  intros N w.
  pose proof (Sound_uiRun _ events _ (Sound_mount r stored N)) as S. fold w in S.
  split; [apply (sound_keys _ _ S)|].
  destruct (sound_history _ _ S) as (h & Hh & _ & _ & [[A B] | (A & B & C)]).
  - exists h. split; [exact Hh | right; now split].
  - exists h. split; [exact Hh | left; repeat split; assumption].
Qed.

Lemma storage_follows_history_witness :
  let w := uiRun [Core (LeaderboardClick "Ens");
                  Core (Respond 0 (FetchResponse 200 (Normal (JObj []))))]
             (mount rootRoute (Item "not json" (Throw "Unexpected token"))) in
  Forall (fun kv => fst kv = SEARCH_HISTORY_KEY) (storageWrites (log w))
  /\ localStorage w = Some (JSON_stringify ["ens.eth"]).
Proof.
  intros w. split; [|reflexivity].
  exact (proj1 (storage_follows_history rootRoute
                  (Item "not json" (Throw "Unexpected token"))
                  [Core (LeaderboardClick "Ens");
                   Core (Respond 0 (FetchResponse 200 (Normal (JObj []))))] eq_refl)).
Defined.

(** X9. After a mount that restored nothing, whatever happens next: every
    URL pushed is a slash followed by a lower-cased name ending in [.eth],
    the root path is never pushed, and every request sent is the lookup of
    a name that was pushed, with no more requests than pushes. *)
Theorem every_request_follows_its_push
  (r : Route) (stored : StoredItem) (events : list UiEvent) :
  restoresNothing stored = true ->
  let w := uiRun events (mount r stored) in
  Forall (fun href => exists n,
            href = "/" ++ n /\ toLowerCase n = n /\ endsWith n ".eth" = true)
         (pushes (log w))
  /\ ~ In "/" (pushes (log w))
  /\ Forall (fun url => exists href,
               In href (pushes (log w))
               /\ url = "/api/ens?name=" ++ encodeURIComponent (slice1 href))
            (requests (log w))
  /\ List.length (requests (log w)) <= List.length (pushes (log w)).
Proof.
  intros N w.
  pose proof (Sound_uiRun _ events _ (Sound_mount r stored N)) as S. fold w in S.
  assert (F : Forall (fun href => exists n,
                        href = "/" ++ n /\ toLowerCase n = n /\ endsWith n ".eth" = true)
                     (pushes (log w))).
  { eapply Forall_impl; [|exact (sound_pushes _ _ S)].
    intros href (n & E & C). exists n.
    destruct (canonical_shape n C) as (L & _ & X). now repeat split. }
  split; [exact F|]. split; [|split].
  - intros I. rewrite Forall_forall in F.
    destruct (F _ I) as (n & E & _ & X).
    injection E as E. subst n. discriminate X.
  - rewrite (sound_requests _ _ S). apply Forall_forall. intros url Hu.
    apply in_map_iff in Hu as (href & E & I). exists href. now split.
  - rewrite (sound_requests _ _ S), length_map. lia.
Qed.

Lemma every_request_follows_its_push_witness :
  let w := uiRun [Change " Vitalik "; Submit; HistoryClick "a b.eth"]
             (mount {| initialDomain := Some "ens"; pathname := "/ens" |} NoItem) in
  pushes (log w) = ["/ens.eth"; "/vitalik.eth"; "/a b.eth"]
  /\ ~ In "/" (pushes (log w)).
Proof.
  intros w. split; [reflexivity|].
  exact (proj1 (proj2 (every_request_follows_its_push
                         {| initialDomain := Some "ens"; pathname := "/ens" |} NoItem
                         [Change " Vitalik "; Submit; HistoryClick "a b.eth"] eq_refl))).
Defined.

(** ** Outcomes of one search *)

Lemma orElse_truthy message : truthy (JStr (orElse message failedMessage)) = true.
Proof. unfold orElse. destruct (nonEmpty message) eqn:E; cbn; [exact E | reflexivity]. Qed.

Lemma orDefault_truthy e fallback :
  nonEmpty fallback = true -> truthy (orDefault e fallback) = true.
Proof.
  intros F. unfold orDefault. destruct e as [x|]; [|exact F].
  destruct (truthy x) eqn:T; [exact T | exact F].
Qed.

Lemma failure_outcome r :
  isSuccess r = false ->
  (forall v, serverMessage r = Some v -> outcome r = Failed v /\ truthy v = true)
  /\ (serverMessage r = None ->
      exists s, nonEmpty s = true /\ outcome r = Failed (JStr s)).
Proof.
  unfold isSuccess, serverMessage, outcome, caught.
  destruct r as [m | status [body | m]]; intros H;
    try (split; [discriminate|]; intros _; eexists;
         split; [apply orElse_truthy | reflexivity]).
  rewrite H. destruct (errorField body) as [[v|] | m].
  - unfold orDefault. destruct (truthy v) eqn:T; split; try discriminate.
    + intros x E. injection E as <-. now split.
    + intros _. eexists. split; [|reflexivity]. now destruct (status =? 429)%Z.
  - split; [discriminate|]. intros _. eexists. split; [|reflexivity].
    now destruct (status =? 429)%Z.
  - split; [discriminate|]. intros _. eexists.
    split; [apply orElse_truthy | reflexivity].
Qed.

(** X10. Whenever the request is rejected, the response is not ok, or its
    body does not parse, the loading flag is cleared, the previous result
    and the history are left alone, and the error is set.  It is a string
    that is not empty, shown in the error state, unless the response
    carried a truthy [error] field; such a field becomes the error as it
    is, and is shown in the error state when it is a string. *)
Theorem every_failure_shows_a_message (searchName : string) (r : FetchResult) (w : World) :
  isSuccess r = false ->
  let w' := resume searchName r w in
  isSearching w' = false
  /\ searchResults w' = searchResults w
  /\ searchHistory w' = searchHistory w
  /\ (serverMessage r = None ->
      exists s, nonEmpty s = true /\ error w' = JStr s /\ view w' = Error (JStr s))
  /\ (forall v, serverMessage r = Some v -> error w' = v /\ truthy v = true)
  /\ (forall s, serverMessage r = Some (JStr s) ->
      nonEmpty s = true /\ view w' = Error (JStr s)).
Proof.
  intros F w'. destruct (failure_outcome r F) as (Sv & Sn).
  destruct (resume_cells searchName w r) as (I & E & R & _).
  destruct (resume_history searchName w r) as (H & _).
  fold w' in I, E, R, H.
  assert (O : exists m, outcome r = Failed m).
  { destruct (serverMessage r) as [v|] eqn:M.
    - exists v. now destruct (Sv v eq_refl).
    - destruct (Sn eq_refl) as (s & _ & O). now exists (JStr s). }
  destruct O as (m & O). rewrite O in E, R, H.
  repeat split; try assumption.
  - intros M. destruct (Sn M) as (s & N & Os).
    rewrite Os in O. injection O as <-. exists s.
    unfold view. rewrite E. cbn. now rewrite N.
  - destruct (Sv v H0) as [Ov _]. rewrite Ov in O. now injection O as <-.
  - now destruct (Sv v H0).
  - now destruct (Sv _ H0).
  - destruct (Sv _ H0) as [Ov T]. rewrite Ov in O. injection O as <-.
    unfold view. rewrite E. cbn in *. now rewrite T.
Qed.

Lemma every_failure_witness :
  view (resume "ens.eth" (FetchResponse 404 (Normal (JObj [("error", JStr "")])))
          (mount rootRoute NoItem))
  = Error (JStr failedMessage).
Proof.
  destruct (every_failure_shows_a_message "ens.eth"
              (FetchResponse 404 (Normal (JObj [("error", JStr "")])))
              (mount rootRoute NoItem) eq_refl) as (_ & _ & _ & M & _).
  destruct (M eq_refl) as (s & _ & _ & V).
  rewrite V. symmetry. exact V.
Defined.

Lemma resume_success searchName status data w :
  ok status = true ->
  resume searchName (FetchResponse status (Normal data)) w
  = setIsSearching false (saveToHistory searchName (setSearchResults data w)).
Proof. intros K. unfold resume, tryBlock. now rewrite K. Qed.

(** A click answered by a successful response, from a state with nothing
    in flight. *)
Lemma search_succeeds name status data w h :
  crashed w = false -> pending w = [] -> searchHistory w = ofStrings h ->
  ok status = true ->
  let sn := searchNameOf name in
  let w' := searchThenRespond name (FetchResponse status (Normal data)) w in
  let updated := historyUpdater sn h in
  cells w' = (JNull, data) /\ isSearching w' = false /\ crashed w' = false
  /\ ensName w' = name
  /\ searchHistory w' = ofStrings updated
  /\ localStorage w' = Some (JSON_stringify updated)
  /\ log w' = (log w ++ [RouterPush ("/" ++ sn); FetchGet (issued w) (apiUrl sn);
                         StorageSetItem SEARCH_HISTORY_KEY (JSON_stringify updated)])%list.
Proof.
  intros C P H K sn w' updated. subst sn w' updated.
  rewrite (searchThenRespond_resume name _ w C P), (resume_success _ _ _ _ K).
  destruct (performSearch_frame name (setEnsName name w)) as (H1 & _ & C1 & N1 & _).
  destruct (performSearch_cells name (setEnsName name w)) as (_ & E1 & _).
  pose proof (performSearch_log name (setEnsName name w)) as L1.
  cbn [searchHistory crashed ensName log issued setEnsName] in H1, C1, N1, L1.
  set (w0 := performSearch name (setEnsName name w)) in *.
  set (w1 := setSearchResults data (setPending [] (S (issued w)) w0)).
  assert (Hw1 : searchHistory w1 = ofStrings h) by (rewrite <- H, <- H1; reflexivity).
  destruct (canonical_facts _ (canonical_searchNameOf name)) as [N E].
  destruct (saveToHistory_effects _ w1 h Hw1 N) as (Eh & Es & El & Ec & _ & En & _).
  destruct (saveToHistory_frame (searchNameOf name) w1) as (_ & Ee & Er & _).
  rewrite E in Eh, Es, El. unfold cells.
  cbn [isSearching error searchResults crashed ensName searchHistory localStorage log
       setIsSearching].
  rewrite Ee, Er, Ec, En, Eh, Es, El.
  cbn [error searchResults crashed ensName log setSearchResults setPending w1].
  rewrite E1, C1, N1, L1, <- app_assoc. repeat split. exact C.
Qed.

(** X11. A search answered by an ok response, from a state with nothing in
    flight: the result cell holds the body, no error is set and loading is
    over; the box keeps the name as given; the URL pushed, the name
    requested and the first history entry are the same normalised name,
    and the history is stored. *)
Theorem successful_search_end_to_end
  (name : string) (status : Z) (data : JsVal) (w : World) (h : list string) :
  crashed w = false -> pending w = [] -> searchHistory w = ofStrings h ->
  ok status = true ->
  let sn := searchNameOf name in
  let w' := searchThenRespond name (FetchResponse status (Normal data)) w in
  exists rest,
    (searchResults w' = data /\ error w' = JNull /\ isSearching w' = false)
    /\ ensName w' = name
    /\ searchHistory w' = ofStrings (sn :: rest)
    /\ localStorage w' = Some (JSON_stringify (sn :: rest))
    /\ log w' = (log w ++ [RouterPush ("/" ++ sn);
                           FetchGet (issued w) ("/api/ens?name=" ++ encodeURIComponent sn);
                           StorageSetItem SEARCH_HISTORY_KEY (JSON_stringify (sn :: rest))])%list.
Proof.
  intros C P H K sn w'.
  destruct (search_succeeds name status data w h C P H K)
    as (Ec & Ei & _ & En & Eh & Es & El).
  fold sn w' in Ec, Ei, En, Eh, Es, El. rewrite historyUpdater_cons in Eh, Es, El.
  unfold cells in Ec. injection Ec as Ee Er.
  eexists. split; [repeat split; assumption|].
  repeat split; eassumption.
Qed.

Lemma successful_search_witness :
  let w := searchThenRespond "ens"
             (FetchResponse 200 (Normal (JObj [("name", JStr "ens.eth")])))
             (mount rootRoute NoItem) in
  searchResults w = JObj [("name", JStr "ens.eth")]
  /\ pushes (log w) = ["/ens.eth"]
  /\ searchHistory w = ofStrings ["ens.eth"].
Proof.
  intros w.
  destruct (successful_search_end_to_end "ens" 200
              (JObj [("name", JStr "ens.eth")]) (mount rootRoute NoItem) []
              eq_refl eq_refl eq_refl eq_refl) as (rest & (V & _) & _).
  split; [exact V | split; reflexivity].
Defined.

(** X12. An ok response whose body is falsy ([null], [false], [0] or the
    empty string) shows no result: the page goes back to its idle
    placeholder, yet the name is recorded in the history as for any
    successful search. *)
Theorem falsy_body_shows_idle_but_is_recorded
  (name : string) (status : Z) (data : JsVal) (w : World) (h : list string) :
  crashed w = false -> pending w = [] -> searchHistory w = ofStrings h ->
  ok status = true -> truthy data = false ->
  let w' := searchThenRespond name (FetchResponse status (Normal data)) w in
  view w' = Idle
  /\ exists rest, searchHistory w' = ofStrings (searchNameOf name :: rest).
Proof.
  intros C P H K T w'.
  destruct (search_succeeds name status data w h C P H K)
    as (Ec & Ei & _ & _ & Eh & _).
  fold w' in Ec, Ei, Eh. rewrite historyUpdater_cons in Eh. split.
  - unfold cells in Ec. injection Ec as Ee Er.
    unfold view. rewrite Ee, Ei, Er, T. reflexivity.
  - eexists. exact Eh.
Qed.

Lemma falsy_body_witness :
  view (searchThenRespond "ens" (FetchResponse 200 (Normal JNull)) (mount rootRoute NoItem))
  = Idle.
Proof.
  exact (proj1 (falsy_body_shows_idle_but_is_recorded "ens" 200 JNull
                  (mount rootRoute NoItem) [] eq_refl eq_refl eq_refl eq_refl eq_refl)).
Defined.

(** ** Entry points *)

Lemma blank_searchNameOf name : nonEmpty (trim name) = false -> searchNameOf name = ".eth".
Proof.
  intros B. unfold searchNameOf. destruct (trim name); [reflexivity | discriminate].
Qed.

(** X13. Only the form guards against a blank name.  When the text typed
    is empty or blank, submitting does nothing at all; but a blank name
    coming from the leaderboard callback or, when not empty, from the
    route is searched as the bare suffix [.eth]. *)
Theorem only_the_form_rejects_blank_names (name : string) (w : World) :
  nonEmpty (trim name) = false ->
  handleSearch (handleChange name w) = handleChange name w
  /\ log (handleLeaderboardClick name w)
     = (log w ++ [RouterPush "/.eth"; FetchGet (issued w) "/api/ens?name=.eth"])%list
  /\ (nonEmpty name = true ->
      forall path stored,
        requests (log (mount {| initialDomain := Some name; pathname := path |} stored))
        = ["/api/ens?name=.eth"]).
Proof.
  intros B. split; [|split].
  - unfold handleSearch. cbn [ensName handleChange setEnsName].
    rewrite trim_toLowerCase. destruct (trim name); [reflexivity | discriminate].
  - unfold handleLeaderboardClick. rewrite performSearch_log, (blank_searchNameOf name B).
    reflexivity.
  - intros N path stored. unfold mount. rewrite (routeEffect_initialDomain _ _ _ N).
    destruct (restoreHistory_quiet {| initialDomain := Some name; pathname := path |} stored)
      as (Rq & _).
    rewrite performSearch_log, requests_app, (blank_searchNameOf name B).
    cbn [log setEnsName]. rewrite Rq. reflexivity.
Qed.

Lemma only_the_form_rejects_blank_names_witness :
  let w := mount rootRoute NoItem in
  uiRun [Change "  "; Submit] w = handleChange "  " w
  /\ requests (log (mount {| initialDomain := Some " "; pathname := "/%20" |} NoItem))
     = ["/api/ens?name=.eth"].
Proof.
  intros w.
  destruct (only_the_form_rejects_blank_names " " w eq_refl) as (_ & _ & R).
  split; [reflexivity | exact (R eq_refl "/%20" NoItem)].
Defined.

Lemma nonEmpty_slash t : nonEmpty t = true -> String.eqb ("/" ++ t) "/" = false.
Proof. destruct t; [discriminate | reflexivity]. Qed.

(** X14. Without an [initialDomain] (absent or empty), [Home] takes the
    term from the path: everything after the leading slash, as it stands,
    with no percent-decoding, and searches it once; at the root path, or
    with no path, it searches nothing. *)
Theorem path_term_is_searched_as_it_stands (t : string) (stored : StoredItem) :
  nonEmpty t = true ->
  let absent := mount {| initialDomain := None; pathname := "/" ++ t |} stored in
  let empty := mount {| initialDomain := Some ""; pathname := "/" ++ t |} stored in
  (ensName absent = t /\ requests (log absent) = [apiUrl (searchNameOf t)])
  /\ (ensName empty = t /\ requests (log empty) = [apiUrl (searchNameOf t)])
  /\ requests (log (mount rootRoute stored)) = []
  /\ requests (log (mount {| initialDomain := None; pathname := "" |} stored)) = [].
Proof.
  intros N absent empty.
  assert (G : forall i,
             (i = None \/ i = Some "") ->
             let w := mount {| initialDomain := i; pathname := "/" ++ t |} stored in
             ensName w = t /\ requests (log w) = [apiUrl (searchNameOf t)]).
  { intros i Hi w. unfold w, mount, routeEffect. cbn [initialDomain pathname slice1 append].
    pose proof (nonEmpty_slash t N) as Sl. cbn [append] in Sl.
    assert (E : (match i with
                 | Some d => nonEmpty d
                 | None => false
                 end) = false) by (destruct Hi; subst; reflexivity).
    destruct (restoreHistory_quiet {| initialDomain := i; pathname := String "/" t |} stored)
      as (Rq & _).
    set (w0 := restoreHistory stored _) in *.
    assert (R : (match i with
                 | Some d => if nonEmpty d then performSearch d (setEnsName d w0)
                             else performSearch t (setEnsName t w0)
                 | None => performSearch t (setEnsName t w0)
                 end) = performSearch t (setEnsName t w0))
      by (destruct Hi; subst; reflexivity).
    cbn [nonEmpty andb]. rewrite Sl, N. cbn [negb]. rewrite R.
    destruct (performSearch_frame t (setEnsName t w0)) as (_ & _ & _ & En & _).
    rewrite En, performSearch_log, requests_app. cbn [log ensName setEnsName].
    rewrite Rq. split; reflexivity. }
  split; [apply G; now left|]. split; [apply G; now right|].
  split.
  - now destruct (restoreHistory_quiet rootRoute stored).
  - now destruct (restoreHistory_quiet {| initialDomain := None; pathname := "" |} stored).
Qed.

Lemma path_term_witness :
  requests (log (mount {| initialDomain := None; pathname := "/a%20b" |} NoItem))
  = ["/api/ens?name=a%2520b.eth"].
Proof.
  exact (proj2 (proj1 (path_term_is_searched_as_it_stands "a%20b" NoItem eq_refl))).
Defined.

Lemma routeEffect_deps r w :
  deps (routeEffect r w) = deps w.
Proof.
  unfold routeEffect.
  destruct (initialDomain r) as [d|]; [destruct (nonEmpty d)|];
    try destruct (nonEmpty (pathname r) && negb (String.eqb (pathname r) "/"));
    try destruct (nonEmpty (slice1 (pathname r)));
    try reflexivity;
    match goal with
    | |- context [performSearch ?n ?v] =>
        now destruct (performSearch_frame n v) as (_ & _ & _ & _ & D)
    end.
Qed.

(** X15. Rendering a second time with the same pathname and initialDomain
    does nothing: whatever the state and the route, the route effect runs
    at most once for two renders in a row at the same route. *)
Theorem second_render_at_same_route_is_idle (r : Route) (w : World) :
  step (step w (Render r)) (Render r) = step w (Render r).
Proof.
  unfold step at 2. destruct (crashed w) eqn:C.
  - unfold step. now rewrite C.
  - unfold rerender. destruct (sameDeps (deps w) r) eqn:S.
    + unfold step, rerender. now rewrite C, S.
    + unfold step, rerender.
      destruct (routeEffect_frame r (setDeps r w)) as (_ & _ & C' & _).
      rewrite routeEffect_deps. cbn [deps setDeps].
      rewrite sameDeps_refl, C, S. now destruct (crashed (routeEffect r (setDeps r w))).
Qed.

(** X16. With two searches in flight, the first response to arrive clears
    the loading flag although the other request is still pending: the page
    stops showing the loading state before the later search has settled. *)
Theorem first_response_ends_loading_for_both
  (a b : string) (ra : FetchResult) (w0 : World) :
  crashed w0 = false ->
  pending w0 = [] ->
  (exists h, searchHistory w0 = ofStrings h) ->
  let i := issued w0 in
  let w := run [LeaderboardClick a; LeaderboardClick b; Respond i ra] w0 in
  isSearching w = false
  /\ view w <> Loading
  /\ pending w = [(S i, searchNameOf b)].
Proof.
  intros C P H i w.
  destruct (two_clicks a b w0 (conj C H) P) as ([C2 H2] & P2 & E2).
  set (w2 := run [LeaderboardClick a; LeaderboardClick b] w0) in *.
  assert (E : w = step w2 (Respond i ra)) by reflexivity.
  fold i in P2.
  rewrite (step_respond w2 i ra (searchNameOf a) C2) in E
    by (rewrite P2; cbn; now rewrite Nat.eqb_refl).
  rewrite P2 in E. cbn [dropPending filter fst] in E.
  rewrite Nat.eqb_refl, Nat_eqb_succ' in E. cbn [negb] in E.
  destruct (resume_cells (searchNameOf a)
              (setPending [(S i, searchNameOf b)] (issued w2) w2) ra)
    as (I & _ & _ & Pn & _).
  rewrite <- E in I, Pn. repeat split; [exact I | | exact Pn].
  unfold view. rewrite I. destruct (truthy (error w)); [discriminate|].
  destruct (truthy (searchResults w)); discriminate.
Qed.

Lemma first_response_witness :
  let w := run [LeaderboardClick "a"; LeaderboardClick "b";
                Respond 0 (FetchResponse 200 (Normal (JObj [])))]
             (mount rootRoute NoItem) in
  isSearching w = false /\ pending w = [(1, "b.eth")].
Proof.
  destruct (first_response_ends_loading_for_both "a" "b"
              (FetchResponse 200 (Normal (JObj []))) (mount rootRoute NoItem)
              eq_refl eq_refl (ex_intro _ [] eq_refl)) as (I & _ & P).
  split; [exact I | exact P].
Defined.

Lemma uiStep_Core w e : uiStep w (Core e) = step w e.
Proof. unfold uiStep, step. now destruct (crashed w). Qed.

Lemma handleHistoryClick_as_search name w :
  handleHistoryClick name w = handleLeaderboardClick name w.
Proof. reflexivity. Qed.

Lemma NoDup_map_inj {A B} (f : A -> B) l x y :
  NoDup (map f l) -> In x l -> In y l -> f x = f y -> x = y.
Proof.
  induction l as [|a l IH]; cbn; intros D Hx Hy E; [destruct Hx|].
  inversion D as [|? ? Hn Hd]; subst.
  destruct Hx as [-> | Hx], Hy as [-> | Hy]; auto.
  - exfalso. apply Hn. rewrite E. now apply in_map.
  - exfalso. apply Hn. rewrite <- E. now apply in_map.
Qed.

(** X17. Searching again from a history entry, with an ok response and
    nothing else in flight, moves that entry to the front and loses none:
    the history has as many entries as before, every other entry is still
    listed, the box holds the entry and the dropdown is closed. *)
Theorem history_click_promotes_entry
  (item : string) (status : Z) (data : JsVal) (w : World) (h : list string) :
  crashed w = false -> pending w = [] -> searchHistory w = ofStrings h ->
  List.length h <= 10 -> NoDup (map toLowerCase h) ->
  In item h -> searchNameOf item = item ->
  ok status = true ->
  let w' := uiRun [HistoryClick item;
                   Core (Respond (issued w) (FetchResponse status (Normal data)))] w in
  exists rest,
    searchHistory w' = ofStrings (item :: rest)
    /\ S (List.length rest) = List.length h
    /\ (forall x, In x h -> x <> item -> In x rest)
    /\ ensName w' = item
    /\ showHistory w' = false.
Proof.
  intros C P H L D I Ca K w'.
  assert (E : w' = searchThenRespond item (FetchResponse status (Normal data)) w).
  { unfold w', uiRun, searchThenRespond, run. cbn [fold_left].
    rewrite uiStep_Core, (step_click w item C). unfold uiStep. rewrite C.
    reflexivity. }
  destruct (search_succeeds item status data w h C P H K)
    as (_ & _ & _ & En & Eh & _).
  rewrite <- E, Ca, historyUpdater_cons in Eh. rewrite <- E in En.
  destruct (canonical_shape item Ca) as (Lo & _).
  assert (Im : In item (map toLowerCase h)) by (rewrite <- Lo; now apply in_map).
  pose proof (keeps_present_length item h D Im) as Len.
  rewrite firstn_all2 in Eh by lia.
  eexists. repeat split; [exact Eh | exact Len | | exact En |].
  - intros x Hx Nx. apply filter_In. split; [exact Hx|].
    destruct (String.eqb_spec (toLowerCase x) item) as [Ex|]; [|reflexivity].
    exfalso. apply Nx. apply (NoDup_map_inj toLowerCase h x item D Hx I).
    now rewrite Lo.
  - rewrite E, (searchThenRespond_resume item _ w C P), (resume_success _ _ _ _ K).
    cbn [showHistory setIsSearching].
    destruct (performSearch_cells item (setEnsName item w)) as (_ & _ & _ & Sh).
    unfold saveToHistory.
    destruct (negb _); [exact Sh|].
    destruct (stringArray _); exact Sh.
Qed.

Lemma history_click_promotes_entry_witness :
  let w := setSearchHistory (ofStrings ["a.eth"; "b.eth"; "c.eth"]) (mount rootRoute NoItem) in
  searchHistory (uiRun [HistoryClick "c.eth";
                        Core (Respond 0 (FetchResponse 200 (Normal (JObj []))))] w)
  = ofStrings ["c.eth"; "a.eth"; "b.eth"].
Proof.
  intros w.
  destruct (history_click_promotes_entry "c.eth" 200 (JObj []) w
              ["a.eth"; "b.eth"; "c.eth"] eq_refl eq_refl eq_refl) as (rest & E & _).
  - cbn. lia.
  - cbn. repeat constructor; cbn; intuition discriminate.
  - cbn. auto.
  - reflexivity.
  - reflexivity.
  - assert (G : ofStrings ["c.eth"; "a.eth"; "b.eth"] = ofStrings ("c.eth" :: rest))
      by exact E.
    exact (eq_trans E (eq_sym G)).
Defined.

(** X18. A history that is not an array of strings (as a stored value of
    another shape leaves it) makes both updaters throw: the next
    successful search with nothing else in flight, and any removal, take
    the component down. *)
Theorem malformed_history_breaks_updates
  (r : Route) (raw name : string) (v data : JsVal) (status : Z) (w : World) :
  stringArray (searchHistory w) = None ->
  crashed w = false -> pending w = [] -> ok status = true ->
  crashed (searchThenRespond name (FetchResponse status (Normal data)) w) = true
  /\ crashed (removeFromHistory name w) = true
  /\ (nonEmpty raw = true -> stringArray v = None ->
      crashed (removeFromHistory name (mount r (Item raw (Normal v)))) = true).
Proof.
  intros M C P K. split; [|split].
  - rewrite (searchThenRespond_resume name _ w C P), (resume_success _ _ _ _ K).
    cbn [crashed setIsSearching]. unfold saveToHistory.
    fold (normalizedName (searchNameOf name)).
    rewrite normalizedName_searchNameOf, searchNameOf_nonEmpty. cbn [negb].
    destruct (performSearch_frame name (setEnsName name w)) as (H & _).
    cbn [searchHistory setSearchResults setPending]. rewrite H.
    cbn [searchHistory setEnsName]. now rewrite M.
  - unfold removeFromHistory. now rewrite M.
  - intros N Mv. unfold removeFromHistory.
    destruct (routeEffect_frame r
                (restoreHistory (Item raw (Normal v)) (initial r (Item raw (Normal v)))))
      as (H & _).
    unfold mount. rewrite H. cbn [restoreHistory]. rewrite N.
    cbn [searchHistory setSearchHistory]. now rewrite Mv.
Qed.

Lemma malformed_history_breaks_updates_witness :
  let w := mount rootRoute (Item "{}" (Normal (JObj []))) in
  crashed (searchThenRespond "ens" (FetchResponse 200 (Normal (JObj []))) w) = true
  /\ crashed (removeFromHistory "ens.eth" w) = true.
Proof.
  intros w.
  destruct (malformed_history_breaks_updates rootRoute "{}" "ens" (JObj []) (JObj []) 200 w
              eq_refl eq_refl eq_refl eq_refl) as (A & B & _).
  split; [exact A | exact B].
Defined.

(** ** The request URL *)

Ltac by_cases_on_char c := destruct c as [[] [] [] [] [] [] [] []]; reflexivity.

Lemma encodeUnit_safe c :
  forallb urlSafe (list_ascii_of_string (encodeUnit c)) = true.
Proof. by_cases_on_char c. Qed.

Lemma encodeUnit_unreserved c : isUnreserved c = true -> encodeUnit c = String c "".
Proof. intros U. unfold encodeUnit. now rewrite U. Qed.

Lemma list_ascii_of_string_app s t :
  list_ascii_of_string (s ++ t) = (list_ascii_of_string s ++ list_ascii_of_string t)%list.
Proof. induction s as [|c s IH]; cbn; [reflexivity | now rewrite IH]. Qed.

(** X19. The name in a request URL is made of unreserved characters and
    percent escapes only, so no name can add a parameter or a fragment to
    the request; a name made of unreserved characters alone (letters,
    digits, [-], [.], [_] and the like) is sent as it is. *)
Theorem request_name_is_escaped (searchName : string) :
  apiUrl searchName = "/api/ens?name=" ++ encodeURIComponent searchName
  /\ forallb urlSafe (list_ascii_of_string (encodeURIComponent searchName)) = true
  /\ (forallb isUnreserved (list_ascii_of_string searchName) = true ->
      apiUrl searchName = "/api/ens?name=" ++ searchName).
Proof.
  split; [reflexivity|]. split.
  - induction searchName as [|c s IH]; [reflexivity|].
    cbn [encodeURIComponent]. rewrite list_ascii_of_string_app, forallb_app.
    now rewrite encodeUnit_safe, IH.
  - intros U. unfold apiUrl. f_equal.
    induction searchName as [|c s IH]; [reflexivity|].
    cbn [list_ascii_of_string forallb] in U. apply andb_true_iff in U as [Uc Us].
    cbn [encodeURIComponent]. now rewrite (encodeUnit_unreserved c Uc), IH.
Qed.

Lemma request_name_is_escaped_witness :
  apiUrl "vitalik.eth" = "/api/ens?name=vitalik.eth".
Proof.
  exact (proj2 (proj2 (request_name_is_escaped "vitalik.eth")) eq_refl).
Defined.

(** ** Route initialisation over renders *)

Lemma routeEffect_term r w :
  routeEffect r w =
  match routeTerm r with
  | Some t => performSearch t (setEnsName t w)
  | None => w
  end.
Proof.
  unfold routeEffect, routeTerm.
  destruct (initialDomain r) as [d|]; [destruct (nonEmpty d); [reflexivity|]|];
    destruct (nonEmpty (pathname r) && negb (String.eqb (pathname r) "/"));
    try reflexivity;
    now destruct (nonEmpty (slice1 (pathname r))).
Qed.

Lemma routeEffect_requests r w :
  requests (log (routeEffect r w)) = (requests (log w) ++ lookupsOf [r])%list.
Proof.
  rewrite routeEffect_term. cbn [lookupsOf].
  destruct (routeTerm r) as [t|]; [|now rewrite app_nil_r].
  now rewrite performSearch_log, requests_app.
Qed.

Lemma lookupsOf_cons r rs : lookupsOf (r :: rs) = (lookupsOf [r] ++ lookupsOf rs)%list.
Proof. cbn. now destruct (routeTerm r). Qed.

Lemma renders_requests rs : forall w,
  crashed w = false ->
  requests (log (run (map Render rs) w))
  = (requests (log w) ++ lookupsOf (changedRenders (deps w) rs))%list.
Proof.
  induction rs as [|r rs IH]; intros w C; cbn [map run fold_left changedRenders].
  - cbn. now rewrite app_nil_r.
  - fold (run (map Render rs) (step w (Render r))).
    unfold step. rewrite C. unfold rerender.
    destruct (sameDeps (deps w) r); [now apply IH|].
    destruct (routeEffect_frame r (setDeps r w)) as (_ & _ & C' & _).
    rewrite IH by (rewrite C'; exact C).
    rewrite routeEffect_deps, routeEffect_requests. cbn [deps log setDeps].
    now rewrite (lookupsOf_cons r (changedRenders r rs)), app_assoc.
Qed.

(** C4 as amended. [Home] searches once on mount, for the term it is given
    ([DomainPage] hands it the percent-decoded route segment, used as it
    is when not empty), and once more at every later render whose pathname
    or initialDomain differs from the render before, for the term of that
    render; a render with both unchanged searches nothing.  The requests
    sent by a page load and the renders after it are exactly these.  So
    the render that follows the search's own [router.push] runs the
    initialisation again whenever it comes with another pathname or term. *)
Theorem route_initialization_runs_at_each_route_change
  (p0 : Route) (stored : StoredItem) (rs : list Route) (d path : string) :
  requests (log (run (map Render rs) (mount p0 stored)))
  = lookupsOf (p0 :: changedRenders p0 rs)
  /\ (nonEmpty d = true ->
      DomainPage (Normal d) = Normal (Some d)
      /\ routeTerm {| initialDomain := Some d; pathname := path |} = Some d
      /\ ensName (mount {| initialDomain := Some d; pathname := path |} stored) = d
      /\ pushes (log (mount {| initialDomain := Some d; pathname := path |} stored))
         = ["/" ++ searchNameOf d]).
Proof.
  split.
  - destruct (restoreHistory_quiet p0 stored) as (Rq & _ & Rc & Rd & _).
    destruct (routeEffect_frame p0 (restoreHistory stored (initial p0 stored)))
      as (_ & _ & C & _).
    rewrite renders_requests by (unfold mount; now rewrite C).
    unfold mount. rewrite routeEffect_deps, routeEffect_requests, Rq, Rd.
    now rewrite (lookupsOf_cons p0 (changedRenders p0 rs)).
  - intros N.
    destruct (restoreHistory_quiet {| initialDomain := Some d; pathname := path |} stored)
      as (_ & Rp & _).
    unfold mount. rewrite (routeEffect_initialDomain d path _ N).
    destruct (performSearch_frame d
                (setEnsName d (restoreHistory stored
                   (initial {| initialDomain := Some d; pathname := path |} stored))))
      as (_ & _ & _ & En & _).
    rewrite En, performSearch_log, pushes_app. cbn [log ensName setEnsName].
    rewrite Rp. unfold routeTerm. cbn [initialDomain]. rewrite N.
    repeat split.
Qed.

Lemma route_initialization_witness :
  let at_ (d path : string) := {| initialDomain := Some d; pathname := path |} in
  requests (log (run (map Render [at_ "ens.eth" "/ens.eth"; at_ "ens.eth" "/ens.eth"])
                   (mount (at_ "ens" "/ens") NoItem)))
  = ["/api/ens?name=ens.eth"; "/api/ens?name=ens.eth"]
  /\ requests (log (run (map Render [at_ "ens.eth" "/ens.eth"])
                      (mount (at_ "ens.eth" "/ens.eth") NoItem)))
     = ["/api/ens?name=ens.eth"]
  /\ requests (log (run (map Render [at_ "a%20b.eth" "/a%2520b.eth";
                                     at_ "a b.eth" "/a%20b.eth";
                                     at_ "a b.eth" "/a%20b.eth"])
                      (mount (at_ "a%2520b" "/a%252520b") NoItem)))
     = ["/api/ens?name=a%252520b.eth"; "/api/ens?name=a%2520b.eth";
        "/api/ens?name=a%20b.eth"].
Proof.
  intros at_. split; [|split].
  - exact (proj1 (route_initialization_runs_at_each_route_change
                    (at_ "ens" "/ens") NoItem
                    [at_ "ens.eth" "/ens.eth"; at_ "ens.eth" "/ens.eth"] "" "")).
  - exact (proj1 (route_initialization_runs_at_each_route_change
                    (at_ "ens.eth" "/ens.eth") NoItem [at_ "ens.eth" "/ens.eth"] "" "")).
  - exact (proj1 (route_initialization_runs_at_each_route_change
                    (at_ "a%2520b" "/a%252520b") NoItem
                    [at_ "a%20b.eth" "/a%2520b.eth"; at_ "a b.eth" "/a%20b.eth";
                     at_ "a b.eth" "/a%20b.eth"] "" "")).
Defined.

(** ** Runs in which searches do not overlap *)

Section OneVariant.

(** At most one cell is set, and while a request is in flight it is the
    only one and nothing but the loading flag is set. *)
Let settled (w : World) : Prop :=
  activeCells w <= 1
  /\ (pending w = []
      \/ error w = JNull /\ searchResults w = JNull
         /\ exists id n, pending w = [(id, n)]).

Lemma settled_quiet w w' :
  isSearching w' = isSearching w -> error w' = error w ->
  searchResults w' = searchResults w -> pending w' = pending w ->
  settled w -> settled w'.
Proof.
  unfold settled, activeCells. intros -> -> -> ->. trivial.
Qed.

Lemma settled_performSearch name w :
  pending w = [] -> settled (performSearch name w).
Proof.
  intros P.
  destruct (performSearch_cells name w) as (I & E & R & _).
  destruct (performSearch_pending name w) as (Pn & _).
  unfold settled, activeCells. rewrite I, E, R, Pn, P. split; [cbn; lia|].
  right. split; [reflexivity|]. split; [reflexivity|]. cbn. eauto.
Qed.

Lemma removeFromHistory_quiet name w :
  isSearching (removeFromHistory name w) = isSearching w
  /\ error (removeFromHistory name w) = error w
  /\ searchResults (removeFromHistory name w) = searchResults w
  /\ pending (removeFromHistory name w) = pending w.
Proof.
  unfold removeFromHistory.
  destruct (stringArray (searchHistory w)) as [prev|]; [|repeat split].
  destruct (Nat.eqb (List.length (removeUpdater name prev)) 0); repeat split.
Qed.

Lemma settled_respond id r w : settled w -> settled (step w (Respond id r)).
Proof.
  intros S. unfold step. destruct (crashed w); [exact S|].
  destruct S as [A [P | (E & R & i & n & P)]].
  - rewrite P. cbn [findPending]. split; [exact A | now left].
  - rewrite P. cbn [findPending dropPending filter fst].
    destruct (Nat.eqb i id); cbn [negb]; [|split; [exact A | right; eauto]].
    split.
    + now apply activeCells_resume.
    + left. now destruct (resume_cells n (setPending [] (issued w) w) r)
        as (_ & _ & _ & Pn & _).
Qed.

Lemma settled_uiStep w e :
  settled w -> (startsSearch w e = true -> pending w = []) -> settled (uiStep w e).
Proof.
  intros S G. unfold uiStep. unfold startsSearch in G.
  destruct (crashed w) eqn:C; [exact S|]. cbn [negb andb] in G.
  destruct e as [[r | name | id r] | | value | name | name | | | inside].
  - unfold step. rewrite C. unfold rerender.
    destruct (sameDeps (deps w) r); [exact S|]. cbn [negb andb] in G.
    rewrite routeEffect_term. destruct (routeTerm r) as [t|].
    + apply settled_performSearch. exact (G eq_refl).
    + now apply (settled_quiet w).
  - unfold step. rewrite C. apply settled_performSearch. exact (G eq_refl).
  - exact (settled_respond id r w S).
  - unfold handleSearch. destruct (nonEmpty (trim (ensName w))); cbn [negb]; [|exact S].
    apply settled_performSearch. exact (G eq_refl).
  - now apply (settled_quiet w).
  - apply settled_performSearch. exact (G eq_refl).
  - destruct (removeFromHistory_quiet name w) as (I & E & R & P).
    now apply (settled_quiet w).
  - now apply (settled_quiet w).
  - now apply (settled_quiet w).
  - unfold handleClickOutside. destruct (showHistory w && negb inside);
      [now apply (settled_quiet w) | exact S].
Qed.

Lemma settled_mount r stored : settled (mount r stored).
Proof.
  unfold mount. rewrite routeEffect_term.
  assert (S0 : settled (restoreHistory stored (initial r stored))
               /\ pending (restoreHistory stored (initial r stored)) = []).
  { destruct stored as [|raw [v | m]]; cbn [restoreHistory];
      try destruct (nonEmpty raw); (split; [split; [cbn; lia | now left] | reflexivity]). }
  destruct (routeTerm r) as [t|]; [|apply S0].
  apply settled_performSearch. apply S0.
Qed.

Lemma settled_states events : forall w,
  settled w -> nonOverlapping events w = true ->
  Forall (fun w => activeCells w <= 1) (uiStates events w).
Proof.
  induction events as [|e events IH]; intros w S N; cbn [uiStates]; [constructor|].
  cbn [nonOverlapping] in N. apply andb_true_iff in N as [G N].
  assert (S' : settled (uiStep w e)).
  { apply settled_uiStep; [exact S|]. intros St. rewrite St in G. cbn in G.
    unfold noneInFlight in G. now destruct (pending w). }
  constructor; [apply S' | now apply IH].
Qed.

(** C8 as amended. As long as searches do not overlap (no search is started
    while a request is in flight: by a render whose route changed, by a
    submit, or by a click on a leaderboard or history entry), whatever
    route and stored history the page is mounted with and whatever else
    happens (typing, renders, removals, responses), at most one of loading,
    error and result is set in every state passed through, so the three
    cells stand for exactly one of Idle, Loading, Error and Success; and
    entering Loading always clears the previous result and the previous
    error. *)
Theorem one_variant_in_every_run_without_overlap
  (r : Route) (stored : StoredItem) (events : list UiEvent)
  (name : string) (w : World) :
  nonOverlapping events (mount r stored) = true ->
  Forall (fun w => activeCells w <= 1)
    (mount r stored :: uiStates events (mount r stored))
  /\ isSearching (performSearch name w) = true
  /\ error (performSearch name w) = JNull
  /\ searchResults (performSearch name w) = JNull.
Proof.
  intros N.
  destruct (performSearch_cells name w) as (I & E & R & _).
  repeat split; try assumption.
  constructor; [apply settled_mount | apply settled_states; [apply settled_mount | exact N]].
Qed.

End OneVariant.

Lemma one_variant_witness :
  let r := {| initialDomain := Some "ens"; pathname := "/ens" |} in
  let events :=
    [Core (Respond 0 (FetchRejects "Failed to fetch"));
     Core (Render {| initialDomain := Some "ens.eth"; pathname := "/ens.eth" |});
     Change "vitalik";
     Core (Respond 1 (FetchResponse 200 (Normal (JObj [("name", JStr "ens.eth")]))));
     Submit; Remove "ens.eth";
     Core (Respond 2 (FetchResponse 429 (Normal (JObj []))))] in
  nonOverlapping events (mount r NoItem) = true
  /\ Forall (fun w => activeCells w <= 1)
       (mount r NoItem :: uiStates events (mount r NoItem)).
Proof.
  intros r events. split; [reflexivity|].
  exact (proj1 (one_variant_in_every_run_without_overlap r NoItem events "" 
                  (mount r NoItem) eq_refl)).
Defined.
